(** * social-media-app-backend: authentication gate, routers and
      ownership-checked resource handlers, embedded in Rocq.

    The Express/Mongoose backend is modelled as it is written:
    - JSON request bodies and Mongoose documents are finite maps from field
      names to values (a JS object), so that destructuring, [select] and
      [populate] projections are lookups, deletions and filters;
    - the three collections are lists of schema records;
    - [async] handlers are computations in a small state-and-exception
      monad over the store, the response object and an event trace;
    - middleware takes its [next] callback as a continuation;
    - jsonwebtoken, bcryptjs, the ObjectId parser and the rendering of
      numbers and dates as strings are opaque primitives. *)

From stdpp Require Import base strings list gmap sorting pretty.

Local Open Scope string_scope.

(** ** Values *)

(** A MongoDB ObjectId, by its hexadecimal rendering. *)
Definition ObjectId := string.

(** Timestamps, in milliseconds. *)
Definition Timestamp := N.

(** The values of request bodies and of documents. An array of strings
    is the only composite: nested objects, and with them MongoDB operator
    documents, are not modelled. *)
Inductive JValue : Type :=
| JNull
| JBool (b : bool)
| JNum (n : Z)
| JStr (s : string)
| JId (i : ObjectId)
| JDate (t : Timestamp)
| JIds (l : list ObjectId).

(** A JS object used as a record of fields: request bodies, documents. *)
Abbreviation Doc := (gmap string JValue).

(** ** Library primitives (jsonwebtoken, bcryptjs, bson) *)

Record Primitives := {
  (** [jwt.sign({ id }, JWT_SECRET, { expiresIn: '30d' })] issued at a time *)
  jwt_sign : ObjectId → Timestamp → string;
  (** [jwt.verify(token, JWT_SECRET)] at a time: [decoded.id], or [None]
      when the call throws (malformed, bad signature, expired) *)
  jwt_check : string → Timestamp → option ObjectId;
  (** [bcrypt.hash(password, salt)] *)
  bcrypt_hash : string → string → string;
  (** [bcrypt.compare(password, hash)] *)
  bcrypt_compare : string → string → bool;
  (** the ObjectId denoted by a string, when it denotes one *)
  parseObjectId : string → option ObjectId;
  (** [String(n)] of the number that a JSON numeral parses to *)
  number_toString : Z → string;
  (** [date.toString()] *)
  date_toString : Timestamp → string;
}.

(** What a request draws from its environment: the clock, the ObjectId
    generator and [bcrypt.genSalt(10)]. *)
Record Env := {
  now : Timestamp;
  newId : ObjectId;
  genSalt : string;
}.

(** ** Schemas (models/User.js, models/Post.js, models/Message.js) *)

Module User.
Record t := {
  _id : ObjectId;
  username : string;
  email : string;
  password : string;
  bio : option string;
  profilePicture : option string;
  followers : list ObjectId;
  following : list ObjectId;
  createdAt : Timestamp;
  updatedAt : Timestamp;
}.
End User.

Module Comment.
Record t := {
  user : option ObjectId;
  text : string;
  createdAt : Timestamp;
}.
End Comment.

Module Post.
Record t := {
  _id : ObjectId;
  user : ObjectId;
  content : string;
  image : option string;
  likes : list ObjectId;
  comments : list Comment.t;
  createdAt : Timestamp;
  updatedAt : Timestamp;
}.
End Post.

Module Message.
Record t := {
  _id : ObjectId;
  sender : ObjectId;
  recipient : ObjectId;
  content : string;
  read : bool;
  createdAt : Timestamp;
  updatedAt : Timestamp;
}.
End Message.

Record Store := {
  users : list User.t;
  posts : list Post.t;
  messages : list Message.t;
}.

(** ** Documents and projections *)

Definition opt_field (k : string) (v : option string) (d : Doc) : Doc :=
  match v with
  | Some s => <[k := JStr s]> d
  | None => d
  end.

(** The document Mongoose hydrates for a stored user. *)
Definition user_doc (u : User.t) : Doc :=
  opt_field "bio" (User.bio u)
    (opt_field "profilePicture" (User.profilePicture u)
       (<["_id" := JId (User._id u)]>
          (<["username" := JStr (User.username u)]>
             (<["email" := JStr (User.email u)]>
                (<["password" := JStr (User.password u)]>
                   (<["followers" := JIds (User.followers u)]>
                      (<["following" := JIds (User.following u)]>
                         (<["createdAt" := JDate (User.createdAt u)]>
                            (<["updatedAt" := JDate (User.updatedAt u)]>
                               ∅))))))))).

(** [.select('-password')] *)
Definition select_exclude (k : string) (d : Doc) : Doc := delete k d.

(** [.populate(path, 'f1 f2 ...')]: the listed fields only. *)
Definition select_fields (ks : list string) (d : Doc) : Doc :=
  filter (λ kv, kv.1 ∈ ks) d.

(** A reference field of a document sent to the client: the bare id, or
    what [populate] put in its place ([null] when the referee is gone). *)
Inductive Ref : Type :=
| Unpopulated (i : ObjectId)
| Populated (d : option Doc).

Record MessageView := {
  mv_doc : Message.t;
  mv_sender : Ref;
  mv_recipient : Ref;
}.

Record PostView := {
  pv_doc : Post.t;
  pv_user : Ref;
  pv_comment_users : list (option Ref);
}.

(** ** Requests and responses *)

Inductive Method := GET | POST | PUT | PATCH | DELETE.

Record Request := {
  method : Method;
  path : list string;
  authorization : option string;
  body : Doc;
  params_id : option string;
  (** [req.user]; [None] is [undefined] or [null] *)
  user : option Doc;
}.

Definition set_user (u : option Doc) (r : Request) : Request :=
  {| method := method r; path := path r; authorization := authorization r;
     body := body r; params_id := params_id r; user := u |}.

Definition set_params_id (i : option string) (r : Request) : Request :=
  {| method := method r; path := path r; authorization := authorization r;
     body := body r; params_id := i; user := user r |}.

Definition set_path (p : list string) (r : Request) : Request :=
  {| method := method r; path := p; authorization := authorization r;
     body := body r; params_id := params_id r; user := user r |}.

Definition set_body (b : Doc) (r : Request) : Request :=
  {| method := method r; path := path r; authorization := authorization r;
     body := b; params_id := params_id r; user := user r |}.

Inductive Payload : Type :=
| PMessage (message : string)
| PAuth (_id : ObjectId) (username email token : string)
| PPost (p : PostView)
| PPosts (ps : list PostView)
| PMsg (m : MessageView)
| PMsgs (ms : list MessageView)
| PCannotRoute.

Record Response := {
  status : nat;
  json : Payload;
}.

(** ** Handler computations *)

Inductive Error :=
| TypeError
| ValidationError
| CastError
| DuplicateKeyError
| JsonWebTokenError
| HeadersSentError
| BcryptError.

Inductive HandlerName :=
| h_registerUser | h_loginUser
| h_createPost | h_getPosts | h_getPost | h_deletePost
| h_sendMessage | h_getMessages | h_getMessage.

Inductive Event :=
| EvHash (plaintext salt : string)
| EvNext (r : Request)
| EvHandler (h : HandlerName) (r : Request)
| EvUnhandledRejection (e : Error).

Record World := {
  db : Store;
  res : option Response;
  trace : list Event;
}.

(** A request starts with nothing sent and nothing observed. *)
Definition World0 (s : Store) : World :=
  {| db := s; res := None; trace := [] |}.

Definition Js (A : Type) : Type := World → (Error + A) * World.

Definition ret {A} (a : A) : Js A := λ w, (inr a, w).

Definition bind {A B} (c : Js A) (k : A → Js B) : Js B :=
  λ w, match c w with
       | (inl e, w') => (inl e, w')
       | (inr a, w') => k a w'
       end.

Definition throw {A} (e : Error) : Js A := λ w, (inl e, w).

(** [try { c } catch (error) { h }] *)
Definition try_catch {A} (c : Js A) (h : Error → Js A) : Js A :=
  λ w, match c w with
       | (inl e, w') => h e w'
       | (inr a, w') => (inr a, w')
       end.

Declare Scope js_scope.
Delimit Scope js_scope with js.
Notation "x <- c ;; k" := (bind c (λ x, k))
  (at level 100, c at next level, right associativity) : js_scope.
Notation "c ;;; k" := (bind c (λ _, k))
  (at level 100, right associativity) : js_scope.
Local Open Scope js_scope.

Definition get_db : Js Store := λ w, (inr (db w), w).

Definition put_db (s : Store) : Js unit :=
  λ w, (inr tt, {| db := s; res := res w; trace := trace w |}).

Definition emit (e : Event) : Js unit :=
  λ w, (inr tt, {| db := db w; res := res w; trace := e :: trace w |}).

(** [res.status(code).json(payload)]: the first send is the response; a
    second one throws ERR_HTTP_HEADERS_SENT. *)
Definition send (code : nat) (p : Payload) : Js unit :=
  λ w, match res w with
       | Some _ => (inl HeadersSentError, w)
       | None =>
           (inr tt, {| db := db w;
                        res := Some {| status := code; json := p |};
                        trace := trace w |})
       end.

(** An [async] function called without its promise being awaited or
    caught: a rejection is lost to the caller. *)
Definition detached (c : Js unit) : Js unit :=
  try_catch c (λ e, emit (EvUnhandledRejection e)).

(** ** Strings *)

(** [s.split(sep)] for a one-character separator. *)
Fixpoint split_on (sep : Ascii.ascii) (s : string) : list string :=
  match s with
  | EmptyString => [""]
  | String c s' =>
      if Ascii.eqb c sep then "" :: split_on sep s'
      else match split_on sep s' with
           | [] => [String c ""]
           | x :: xs => String c x :: xs
           end
  end.

Definition space : Ascii.ascii :=
  Ascii.Ascii false false false false false true false false.

(** [s.startsWith(p)] *)
Definition startsWith (p s : string) : bool := String.prefix p s.

(** JS truthiness of a string-or-undefined. *)
Definition truthy (t : option string) : bool :=
  match t with
  | Some s => negb (bool_decide (s = ""))
  | None => false
  end.

Global Instance Method_eq_dec : EqDecision Method.
Proof. solve_decision. Defined.

Global Instance JValue_eq_dec : EqDecision JValue.
Proof. solve_decision. Defined.


Global Instance Error_eq_dec : EqDecision Error.
Proof. solve_decision. Defined.

Global Instance HandlerName_eq_dec : EqDecision HandlerName.
Proof. solve_decision. Defined.

Section Backend.
Context (P : Primitives) (env : Env).

(** *** Mongoose casting and validation *)

(** Mongoose's cast to String: a value with a [toString] of its own is
    rendered by it; [null] and arrays are not strings. Nested objects are
    not among the values modelled. *)
Definition castString (v : JValue) : option string :=
  match v with
  | JStr s => Some s
  | JNum n => Some (number_toString P n)
  | JBool b => Some (if b then "true" else "false")
  | JId i => Some i
  | JDate t => Some (date_toString P t)
  | JNull | JIds _ => None
  end.

(** Mongoose's cast to ObjectId: an ObjectId is kept, [null] is none, and
    anything else is parsed from its [toString()], an array's being its
    elements joined by commas. *)
Definition castObjectId (v : JValue) : option ObjectId :=
  match v with
  | JId i => Some i
  | JNull => None
  | JIds l => parseObjectId P (String.concat "," l)
  | _ => castString v ≫= parseObjectId P
  end.

(** [{ type: String, required: true }]: absent, [null], uncastable and
    empty values are rejected. *)
Definition required_string (v : option JValue) : Js string :=
  match v ≫= castString with
  | Some s => if bool_decide (s = "") then throw ValidationError else ret s
  | None => throw ValidationError
  end.

(** [{ type: ObjectId, ref: 'User', required: true }] *)
Definition required_id (v : option JValue) : Js ObjectId :=
  match v ≫= castObjectId with
  | Some i => ret i
  | None => throw ValidationError
  end.

(** [{ type: String }] *)
Definition optional_string (v : option JValue) : Js (option string) :=
  match v with
  | None | Some JNull => ret None
  | Some x =>
      match castString x with
      | Some s => ret (Some s)
      | None => throw ValidationError
      end
  end.

(** *** Collections *)

Definition User_findById (i : ObjectId) : Js (option User.t) :=
  s <- get_db ;;
  ret (List.find (λ u, bool_decide (User._id u = i)) (users s)).

(** [User.findOne({ email })]: the filter value is cast to the path's
    type, String, and a value that cannot be cast fails the query; an
    array stands for [$in]; no stored email matches [undefined] or
    [null]. *)
Definition User_findOne_email (q : option JValue) : Js (option User.t) :=
  match q with
  | None | Some JNull => ret None
  | Some (JIds l) =>
      s <- get_db ;;
      ret (List.find (λ u, bool_decide (User.email u ∈ l)) (users s))
  | Some v =>
      match castString v with
      | Some e =>
          s <- get_db ;;
          ret (List.find (λ u, bool_decide (User.email u = e)) (users s))
      | None => throw CastError
      end
  end.

(** The unique indexes of the user schema. *)
Definition violates_unique (un em : string) (us : list User.t) : bool :=
  existsb (λ u, bool_decide (User.username u = un)
                || bool_decide (User.email u = em)) us.

(** [User.create({ username, email, password })]: validation, then the
    [pre('save')] hook that salts and hashes the password (a new document
    always has it modified), then the insert under the unique indexes. *)
Definition User_create (username email password : option JValue)
  : Js User.t :=
  un <- required_string username ;;
  em <- required_string email ;;
  pw <- required_string password ;;
  emit (EvHash pw (genSalt env)) ;;;
  s <- get_db ;;
  if violates_unique un em (users s) then throw DuplicateKeyError
  else
    let u := {| User._id := newId env;
                User.username := un;
                User.email := em;
                User.password := bcrypt_hash P pw (genSalt env);
                User.bio := None;
                User.profilePicture := None;
                User.followers := [];
                User.following := [];
                User.createdAt := now env;
                User.updatedAt := now env |} in
    put_db {| users := users s ++ [u];
              posts := posts s;
              messages := messages s |} ;;;
    ret u.

(** [user.matchPassword(password)]; bcryptjs throws on a non-string. *)
Definition matchPassword (u : User.t) (password : option JValue)
  : Js bool :=
  match password with
  | Some (JStr p) => ret (bcrypt_compare P p (User.password u))
  | _ => throw BcryptError
  end.

(** [new Post({ user, content, image })] followed by [post.save()] *)
Definition Post_save (user content image : option JValue) : Js Post.t :=
  u <- required_id user ;;
  c <- required_string content ;;
  i <- optional_string image ;;
  s <- get_db ;;
  let p := {| Post._id := newId env;
              Post.user := u;
              Post.content := c;
              Post.image := i;
              Post.likes := [];
              Post.comments := [];
              Post.createdAt := now env;
              Post.updatedAt := now env |} in
  put_db {| users := users s;
            posts := posts s ++ [p];
            messages := messages s |} ;;;
  ret p.

(** [Post.findById(id)], the id arriving as a route parameter: a string
    that is no ObjectId fails the query's cast; for [undefined] the query
    finds nothing. *)
Definition Post_findById (i : option string) : Js (option Post.t) :=
  match i with
  | Some str =>
      match parseObjectId P str with
      | Some k =>
          s <- get_db ;;
          ret (List.find (λ p, bool_decide (Post._id p = k)) (posts s))
      | None => throw CastError
      end
  | None => ret None
  end.

(** [post.remove()] *)
Definition Post_remove (p : Post.t) : Js unit :=
  s <- get_db ;;
  put_db {| users := users s;
            posts := List.filter
                       (λ q, negb (bool_decide (Post._id q = Post._id p)))
                       (posts s);
            messages := messages s |}.

(** [new Message({ sender, recipient, content })] followed by
    [message.save()] *)
Definition Message_save (sender recipient content : option JValue)
  : Js Message.t :=
  sd <- required_id sender ;;
  rc <- required_id recipient ;;
  c <- required_string content ;;
  s <- get_db ;;
  let m := {| Message._id := newId env;
              Message.sender := sd;
              Message.recipient := rc;
              Message.content := c;
              Message.read := false;
              Message.createdAt := now env;
              Message.updatedAt := now env |} in
  put_db {| users := users s;
            posts := posts s;
            messages := messages s ++ [m] |} ;;;
  ret m.

Definition Message_findById (i : option string) : Js (option Message.t) :=
  match i with
  | Some str =>
      match parseObjectId P str with
      | Some k =>
          s <- get_db ;;
          ret (List.find (λ m, bool_decide (Message._id m = k)) (messages s))
      | None => throw CastError
      end
  | None => ret None
  end.

(** [Message.find({ recipient: id })], the id being [req.user._id]: the
    filter value is cast to an ObjectId, and a value that cannot be cast
    fails the query; an array stands for [$in]; no stored recipient
    matches [undefined] or [null]. *)
Definition Message_find_recipient (i : option JValue)
  : Js (list Message.t) :=
  match i with
  | None | Some JNull => ret []
  | Some (JIds l) =>
      match mapM (parseObjectId P) l with
      | Some ks =>
          s <- get_db ;;
          ret (List.filter (λ m, bool_decide (Message.recipient m ∈ ks))
                           (messages s))
      | None => throw CastError
      end
  | Some v =>
      match castObjectId v with
      | Some k =>
          s <- get_db ;;
          ret (List.filter (λ m, bool_decide (Message.recipient m = k))
                           (messages s))
      | None => throw CastError
      end
  end.

(** [.populate(path, fields)] of one reference. *)
Definition populate (fields : list string) (s : Store) (i : ObjectId)
  : Ref :=
  Populated (select_fields fields
               <$> (user_doc
                      <$> List.find (λ u, bool_decide (User._id u = i))
                                    (users s))).

(** [.sort({ createdAt: -1 })] *)
Definition newer_first_msg (a b : Message.t) : Prop :=
  (Message.createdAt b ≤ Message.createdAt a)%N.

Definition newer_first_post (a b : Post.t) : Prop :=
  (Post.createdAt b ≤ Post.createdAt a)%N.

Global Instance newer_first_msg_dec a b : Decision (newer_first_msg a b).
Proof. unfold newer_first_msg. apply _. Defined.

Global Instance newer_first_post_dec a b : Decision (newer_first_post a b).
Proof. unfold newer_first_post. apply _. Defined.

(** *** utils/jwt.js *)

Definition generateToken (i : ObjectId) : string := jwt_sign P i (now env).

(** [jwt.verify(token, process.env.JWT_SECRET)]: jsonwebtoken throws on
    an absent or empty token before it looks at a signature. *)
Definition jwt_verify (token : option string) : Js ObjectId :=
  match token with
  | Some t =>
      if bool_decide (t = "") then throw JsonWebTokenError
      else match jwt_check P t (now env) with
           | Some i => ret i
           | None => throw JsonWebTokenError
           end
  | None => throw JsonWebTokenError
  end.

(** *** middleware/authMiddleware.js *)

Definition authMiddleware (req : Request) (next : Request → Js unit)
  : Js unit :=
  token <-
    match authorization req with
    | Some h =>
        if startsWith "Bearer" h then
          let token := split_on space h !! 1%nat in
          try_catch
            (decoded <- jwt_verify token ;;
             u <- User_findById decoded ;;
             next (set_user (select_exclude "password" <$> (user_doc <$> u))
                            req))
            (λ _, send 401 (PMessage "Not authorized, token failed")) ;;;
          ret token
        else ret None
    | None => ret None
    end ;;
  if negb (truthy token)
  then send 401 (PMessage "Not authorized, no token")
  else ret tt.

(** *** middleware/roleMiddleware.js *)



(** [req.user._id]: a TypeError when [req.user] is [null]. *)
Definition req_user_id (req : Request) : Js (option JValue) :=
  match user req with
  | Some d => ret (d !! "_id")
  | None => throw TypeError
  end.

(** *** controllers/authController.js *)

Definition registerUser (req : Request) : Js unit :=
  let username := body req !! "username" in
  let email := body req !! "email" in
  let password := body req !! "password" in
  userExists <- User_findOne_email email ;;
  match userExists with
  | Some _ => send 400 (PMessage "User already exists")
  | None =>
      (* a created document is truthy: the [else] of [if (user)] is dead *)
      u <- User_create username email password ;;
      send 201 (PAuth (User._id u) (User.username u) (User.email u)
                      (generateToken (User._id u)))
  end.

Definition loginUser (req : Request) : Js unit :=
  let email := body req !! "email" in
  let password := body req !! "password" in
  u <- User_findOne_email email ;;
  ok <- match u with
        | Some u => matchPassword u password
        | None => ret false
        end ;;
  match u, ok with
  | Some u, true =>
      send 200 (PAuth (User._id u) (User.username u) (User.email u)
                      (generateToken (User._id u)))
  | _, _ => send 401 (PMessage "Invalid email or password")
  end.

(** *** controllers/postController.js *)

Definition plain_post (p : Post.t) : PostView :=
  {| pv_doc := p;
     pv_user := Unpopulated (Post.user p);
     pv_comment_users :=
       (λ c, Unpopulated <$> Comment.user c) <$> Post.comments p |}.

Definition populated_post (s : Store) (p : Post.t) : PostView :=
  {| pv_doc := p;
     pv_user := populate ["_id"; "username"; "profilePicture"] s
                         (Post.user p);
     pv_comment_users :=
       (λ c, populate ["_id"; "username"] s <$> Comment.user c)
         <$> Post.comments p |}.

Definition createPost (req : Request) : Js unit :=
  let content := body req !! "content" in
  let image := body req !! "image" in
  uid <- req_user_id req ;;
  createdPost <- Post_save uid content image ;;
  send 201 (PPost (plain_post createdPost)).

Definition getPosts (req : Request) : Js unit :=
  s <- get_db ;;
  send 200 (PPosts (populated_post s
                      <$> merge_sort newer_first_post (posts s))).

Definition getPost (req : Request) : Js unit :=
  post <- Post_findById (params_id req) ;;
  s <- get_db ;;
  match post with
  | Some p => send 200 (PPost (populated_post s p))
  | None => send 404 (PMessage "Post not found")
  end.

(** [a.equals(b)] on ObjectIds: [b] is an ObjectId or a string that
    denotes one; anything else is not equal. *)
Definition ObjectId_equals (a : ObjectId) (b : option JValue) : bool :=
  match b with
  | Some (JId i) => bool_decide (a = i)
  | Some (JStr s) =>
      match parseObjectId P s with
      | Some i => bool_decide (a = i)
      | None => false
      end
  | _ => false
  end.

Definition deletePost (req : Request) : Js unit :=
  post <- Post_findById (params_id req) ;;
  owned <- match post with
           | Some p =>
               uid <- req_user_id req ;;
               ret (ObjectId_equals (Post.user p) uid)
           | None => ret false
           end ;;
  match post, owned with
  | Some p, true =>
      Post_remove p ;;;
      send 200 (PMessage "Post removed")
  | _, _ => send 404 (PMessage "Post not found")
  end.

(** *** controllers/messageController.js *)

Definition plain_message (m : Message.t) : MessageView :=
  {| mv_doc := m;
     mv_sender := Unpopulated (Message.sender m);
     mv_recipient := Unpopulated (Message.recipient m) |}.

Definition sendMessage (req : Request) : Js unit :=
  let recipient := body req !! "recipient" in
  let content := body req !! "content" in
  uid <- req_user_id req ;;
  sentMessage <- Message_save uid recipient content ;;
  send 201 (PMsg (plain_message sentMessage)).

Definition inbox_view (s : Store) (m : Message.t) : MessageView :=
  {| mv_doc := m;
     mv_sender := populate ["_id"; "username"; "profilePicture"] s
                           (Message.sender m);
     mv_recipient := Unpopulated (Message.recipient m) |}.

Definition getMessages (req : Request) : Js unit :=
  uid <- req_user_id req ;;
  found <- Message_find_recipient uid ;;
  s <- get_db ;;
  send 200 (PMsgs (inbox_view s <$> merge_sort newer_first_msg found)).

Definition full_view (s : Store) (m : Message.t) : MessageView :=
  {| mv_doc := m;
     mv_sender := populate ["_id"; "username"; "profilePicture"] s
                           (Message.sender m);
     mv_recipient := populate ["_id"; "username"; "profilePicture"] s
                              (Message.recipient m) |}.

Definition getMessage (req : Request) : Js unit :=
  message <- Message_findById (params_id req) ;;
  s <- get_db ;;
  match message with
  | Some m => send 200 (PMsg (full_view s m))
  | None => send 404 (PMessage "Message not found")
  end.

(** *** Routers (routes/*.js) and the application (app.js) *)

(** Route patterns: ['/'], ['/:id'] and a literal such as ['/login']. *)
Inductive Pattern :=
| Root
| Param
| Lit (s : string).

Inductive Layer :=
| Use (mw : Request → (Request → Js unit) → Js unit)
| Route (m : Method) (pat : Pattern) (name : HandlerName)
        (h : Request → Js unit).

(** Does a route match the method and the rest of the path? A match on
    ['/:id'] binds [req.params.id]. *)
Definition match_route (m : Method) (pat : Pattern) (req : Request)
  : option Request :=
  if bool_decide (method req = m) then
    match pat, path req with
    | Root, [] => Some req
    | Param, [i] =>
        if bool_decide (i = "") then None
        else Some (set_params_id (Some i) req)
    | Lit s, [i] => if bool_decide (i = s) then Some req else None
    | _, _ => None
    end
  else None.

(** Express's last resort when no layer answers. *)
Definition finalhandler : Js unit :=
  λ w, match res w with
       | Some _ => (inr tt, w)
       | None => send 404 PCannotRoute w
       end.

(** The layers of a router, in the order they were registered; [exit]
    is where the request goes when no layer is left. Handlers and
    middleware are [async]: Express does not await them. *)
Fixpoint run_layers (ls : list Layer) (exit : Request → Js unit)
         (req : Request) : Js unit :=
  match ls with
  | [] => exit req
  | Use mw :: rest => detached (mw req (run_layers rest exit))
  | Route m pat name h :: rest =>
      match match_route m pat req with
      | Some req' => emit (EvHandler name req') ;;; detached (h req')
      | None => run_layers rest exit req
      end
  end.

Definition authRoutes : list Layer :=
  [ Route POST (Lit "register") h_registerUser registerUser;
    Route POST (Lit "login") h_loginUser loginUser ].

Definition postRoutes : list Layer :=
  [ Use authMiddleware;
    Route POST Root h_createPost createPost;
    Route GET Root h_getPosts getPosts;
    Route GET Param h_getPost getPost;
    Route DELETE Param h_deletePost deletePost ].

Definition messageRoutes : list Layer :=
  [ Use authMiddleware;
    Route POST Root h_sendMessage sendMessage;
    Route GET Root h_getMessages getMessages;
    Route GET Param h_getMessage getMessage ].

Fixpoint strip_prefix (pre p : list string) : option (list string) :=
  match pre, p with
  | [], _ => Some p
  | a :: pre', b :: p' =>
      if bool_decide (a = b) then strip_prefix pre' p' else None
  | _ :: _, [] => None
  end.

(** [app.use(prefix, router)]: the router sees the path below the
    prefix; a request it does not answer goes on with its path restored. *)
Definition mounted (pre : list string) (router : list Layer)
           (exit : Request → Js unit) (req : Request) : Js unit :=
  match strip_prefix pre (path req) with
  | Some rest =>
      run_layers router (λ r, exit (set_path (path req) r))
                 (set_path rest req)
  | None => exit req
  end.

Definition app : Request → Js unit :=
  mounted ["api"; "auth"] authRoutes
    (mounted ["api"; "posts"] postRoutes
       (mounted ["api"; "messages"] messageRoutes
          (λ _, finalhandler))).
End Backend.

(** ** A concrete instance, for running the model *)

Module Demo.
(** Stand-ins for the libraries: a token is the id behind a fixed
    prefix, a hash is the password behind a fixed prefix. *)
Definition prims : Primitives :=
  {| jwt_sign := λ i _, "jwt." +:+ i;
     jwt_check := λ t _,
       if String.prefix "jwt." t
       then Some (String.substring 4 (String.length t - 4) t)
       else None;
     bcrypt_hash := λ p _, "h:" +:+ p;
     bcrypt_compare := λ p h, bool_decide (h = "h:" +:+ p);
     parseObjectId := λ s, if bool_decide (s = "") then None else Some s;
     number_toString := λ n, pretty n;
     date_toString := λ t, "date " +:+ pretty t |}.

Definition env : Env := {| now := 100%N; newId := "n1"; genSalt := "salt" |}.

Definition mkUser (i name mail : string) : User.t :=
  {| User._id := i; User.username := name; User.email := mail;
     User.password := "h:" +:+ name; User.bio := None;
     User.profilePicture := None; User.followers := [];
     User.following := []; User.createdAt := 1%N; User.updatedAt := 1%N |}.

Definition alice := mkUser "u1" "alice" "alice@example.org".
Definition bob := mkUser "u2" "bob" "bob@example.org".
Definition carol := mkUser "u3" "carol" "carol@example.org".

Definition p1 : Post.t :=
  {| Post._id := "p1"; Post.user := "u1"; Post.content := "hello";
     Post.image := None; Post.likes := []; Post.comments := [];
     Post.createdAt := 10%N; Post.updatedAt := 10%N |}.

Definition mkMessage (i from to : string) (t : Timestamp) : Message.t :=
  {| Message._id := i; Message.sender := from; Message.recipient := to;
     Message.content := "hi"; Message.read := false;
     Message.createdAt := t; Message.updatedAt := t |}.

Definition m1 := mkMessage "m1" "u1" "u2" 20%N.
Definition m2 := mkMessage "m2" "u3" "u2" 30%N.
Definition m3 := mkMessage "m3" "u2" "u1" 25%N.

Definition store : Store :=
  {| users := [alice; bob; carol]; posts := [p1];
     messages := [m1; m2; m3] |}.

(** What the gate attaches for a stored user. *)
Definition identity (u : User.t) : Doc :=
  select_exclude "password" (user_doc u).

Definition request (m : Method) (p : list string) (auth : option string)
           (b : Doc) : Request :=
  {| method := m; path := p; authorization := auth; body := b;
     params_id := None; user := None |}.

(** A request as a handler behind the gate receives it. *)
Definition authed (u : User.t) (id : option string) (b : Doc) : Request :=
  {| method := GET; path := []; authorization := None; body := b;
     params_id := id; user := Some (identity u) |}.
End Demo.

(** ** Specification vocabulary *)

(** The request carries the identity the gate resolved for user [u]. *)
Definition resolved (req : Request) (u : User.t) : Prop :=
  user req = Some (select_exclude "password" (user_doc u)).

(** The token a request bears: the second space-separated piece of an
    [Authorization] header that starts with [Bearer]. *)
Definition bearer_token (req : Request) : option string :=
  match authorization req with
  | Some h => if startsWith "Bearer" h then split_on space h !! 1%nat else None
  | None => None
  end.

(** The subject of the request's token, when the token verifies. *)
Definition verified_subject (P : Primitives) (env : Env) (req : Request)
  : option ObjectId :=
  match bearer_token req with
  | Some t => if bool_decide (t = "") then None else jwt_check P t (now env)
  | None => None
  end.

(** A continuation that only records the request it is given. *)
Definition probe (r : Request) : Js unit := emit (EvNext r).

Definition by_id (i : ObjectId) (u : User.t) : bool :=
  bool_decide (User._id u = i).

(** What the gate puts on a request whose token names [i]. *)
Definition attached (s : Store) (i : ObjectId) (req : Request) : Request :=
  set_user (select_exclude "password"
              <$> (user_doc <$> List.find (by_id i) (users s)))
           req.


Definition post_with_id (k : ObjectId) (p : Post.t) : bool :=
  bool_decide (Post._id p = k).

(** The reading of the specification: every authenticated request is
    answered 201 with the message that was persisted. *)
Definition sendMessage_answers_201 (P : Primitives) (env : Env) (s : Store)
    (req : Request) : Prop :=
  ∃ m, res (sendMessage P env req (World0 s)).2
       = Some {| status := 201; json := PMsg (plain_message m) |}
       ∧ m ∈ messages (db (sendMessage P env req (World0 s)).2).

(** The reading of the specification: the request is answered 400, no
    password has been hashed and the store is as it was. *)
Definition rejected_before_hashing (P : Primitives) (env : Env) (s : Store)
    (req : Request) : Prop :=
  let w := (registerUser P env req (World0 s)).2 in
  res w = Some {| status := 400; json := PMessage "User already exists" |}
  ∧ (∀ p salt, EvHash p salt ∉ trace w)
  ∧ db w = s.

(** The reading of the specification: two failing logins are answered
    alike. *)
Definition login_failures_alike (P : Primitives) (env : Env) (s : Store)
    (req1 req2 : Request) : Prop :=
  res (loginUser P env req1 (World0 s)).2
  = res (loginUser P env req2 (World0 s)).2.

Definition register_body (username email password : string) : Doc :=
  <["username" := JStr username]>
    (<["email" := JStr email]> (<["password" := JStr password]> ∅)).

Definition login_body (email password : string) : Doc :=
  <["email" := JStr email]> (<["password" := JStr password]> ∅).

Definition addressed_to (k : ObjectId) (m : Message.t) : bool :=
  bool_decide (Message.recipient m = k).

Definition no_token_401 : Response :=
  {| status := 401; json := PMessage "Not authorized, no token" |}.

Definition token_failed_401 : Response :=
  {| status := 401; json := PMessage "Not authorized, token failed" |}.

(** The record a successful registration stores. *)
Definition registered (P : Primitives) (env : Env) (un em pw : string)
  : User.t :=
  {| User._id := newId env;
     User.username := un;
     User.email := em;
     User.password := bcrypt_hash P pw (genSalt env);
     User.bio := None;
     User.profilePicture := None;
     User.followers := [];
     User.following := [];
     User.createdAt := now env;
     User.updatedAt := now env |}.


(** A body field that the schema's required-string check turns down:
    absent, [null], not castable to a string, or empty. *)
Definition blank (P : Primitives) (v : option JValue) : Prop :=
  v ≫= castString P = None ∨ v ≫= castString P = Some "".

(** Store [s'] holds the users and messages of [s], unchanged and in
    place, possibly followed by new ones. *)
Definition extends (s s' : Store) : Prop :=
  users s `prefix_of` users s' ∧ messages s `prefix_of` messages s'.

(** A computation that, from any world, only ever appends users and
    messages. *)
Definition keeps {A} (c : Js A) : Prop :=
  ∀ w, extends (db w) (db (c w).2).

Definition layer_keeps (l : Layer) : Prop :=
  match l with
  | Use mw => ∀ req next, (∀ r, keeps (next r)) → keeps (mw req next)
  | Route _ _ _ h => ∀ req, keeps (h req)
  end.

(** The user documents that a response carries in place of references. *)
Definition ref_doc (r : Ref) : option Doc :=
  match r with
  | Populated (Some d) => Some d
  | _ => None
  end.

Definition post_view_docs (v : PostView) : list Doc :=
  omap ref_doc (pv_user v :: omap id (pv_comment_users v)).

Definition message_view_docs (v : MessageView) : list Doc :=
  omap ref_doc [mv_sender v; mv_recipient v].

Definition payload_docs (p : Payload) : list Doc :=
  match p with
  | PPost v => post_view_docs v
  | PPosts vs => vs ≫= post_view_docs
  | PMsg v => message_view_docs v
  | PMsgs vs => vs ≫= message_view_docs
  | PMessage _ | PAuth _ _ _ _ | PCannotRoute => []
  end.

(** The fields the handlers ask [populate] for. *)
Definition public_fields : list string :=
  ["_id"; "username"; "profilePicture"].

Definition public_doc (d : Doc) : Prop :=
  ∀ k, is_Some (d !! k) → k ∈ public_fields.

(** Whatever has been sent carries public user documents only. *)
Definition public_response (w : World) : Prop :=
  ∀ r d, res w = Some r → d ∈ payload_docs (json r) → public_doc d.

Definition sends_public {A} (c : Js A) : Prop :=
  ∀ w, public_response w → public_response (c w).2.

Definition layer_public (l : Layer) : Prop :=
  match l with
  | Use mw => ∀ req next, (∀ r, sends_public (next r)) →
                          sends_public (mw req next)
  | Route _ _ _ h => ∀ req, sends_public (h req)
  end.

(** ** Basic facts *)

Ltac js_unfold :=
  unfold bind, ret, throw, try_catch, get_db, put_db, emit, send, detached
    in *; simpl in *.

Lemma user_doc_lookup_id (u : User.t) :
  select_exclude "password" (user_doc u) !! "_id" = Some (JId (User._id u)).
Proof.
  unfold select_exclude, user_doc, opt_field.
  destruct (User.bio u), (User.profilePicture u); by simplify_map_eq.
Qed.

Lemma user_doc_no_password (u : User.t) :
  select_exclude "password" (user_doc u) !! "password" = None.
Proof. unfold select_exclude. apply lookup_delete_eq. Qed.

Lemma user_doc_other_fields (u : User.t) (k : string) :
  k ≠ "password" →
  select_exclude "password" (user_doc u) !! k = user_doc u !! k.
Proof. intros Hk. unfold select_exclude. by apply lookup_delete_ne. Qed.

Section Facts.
Context (P : Primitives) (env : Env).

Lemma req_user_id_resolved req u w :
  resolved req u →
  req_user_id req w = (inr (Some (JId (User._id u))), w).
Proof.
  unfold resolved, req_user_id. intros ->.
  by rewrite user_doc_lookup_id.
Qed.
End Facts.

(** ** Messages read by id (getMessage) *)





(** ** Deleting a post (deletePost) *)

Lemma find_after_remove (k : ObjectId) (ps : list Post.t) :
  List.find (post_with_id k)
    (List.filter (λ q, negb (bool_decide (Post._id q = k))) ps) = None.
Proof.
  induction ps as [|q ps IH]; [done |]. simpl.
  destruct (bool_decide (Post._id q = k)) eqn:Hq; simpl; [done |].
  unfold post_with_id at 1. by rewrite Hq.
Qed.

(** C4: for an existing post, deletePost answers 200 and removes the post
    when the caller owns it, so that a later lookup of the id finds
    nothing; when the owner differs it answers 404 and leaves the store
    as it was. *)
Theorem deletePost_owner_only (P : Primitives) (s : Store) (req : Request)
    (u : User.t) (i : string) (k : ObjectId) (p : Post.t) :
  resolved req u →
  params_id req = Some i →
  parseObjectId P i = Some k →
  List.find (post_with_id k) (posts s) = Some p →
  let w := (deletePost P req (World0 s)).2 in
  (Post.user p = User._id u →
     res w = Some {| status := 200; json := PMessage "Post removed" |}
     ∧ List.find (post_with_id k) (posts (db w)) = None
     ∧ posts (db w)
       = List.filter (λ q, negb (post_with_id k q)) (posts s)
     ∧ users (db w) = users s ∧ messages (db w) = messages s)
  ∧ (Post.user p ≠ User._id u →
     res w = Some {| status := 404; json := PMessage "Post not found" |}
     ∧ db w = s).
Proof.
  intros Hu Hi Hk Hp.
  assert (Hid : Post._id p = k).
  { apply find_some in Hp as [_ Hp]. unfold post_with_id in Hp.
    by apply bool_decide_eq_true in Hp. }
  unfold deletePost, Post_findById. rewrite Hi. simpl. rewrite Hk.
  unfold post_with_id in *. js_unfold. rewrite Hp. simpl.
  rewrite (req_user_id_resolved req u _ Hu). simpl.
  unfold ObjectId_equals. simpl.
  destruct (bool_decide (Post.user p = User._id u)) eqn:Ho.
  - apply bool_decide_eq_true in Ho. unfold Post_remove. js_unfold.
    rewrite Hid. split; [| done]. intros _.
    repeat split; try done. apply find_after_remove.
  - apply bool_decide_eq_false in Ho. simpl. split; [done |].
    intros _. done.
Qed.

Lemma deletePost_owner_only_witness :
  res (deletePost Demo.prims (Demo.authed Demo.alice (Some "p1") ∅)
         (World0 Demo.store)).2
  = Some {| status := 200; json := PMessage "Post removed" |}
  ∧ res (deletePost Demo.prims (Demo.authed Demo.bob (Some "p1") ∅)
           (World0 Demo.store)).2
    = Some {| status := 404; json := PMessage "Post not found" |}.
Proof.
  split.
  - apply (deletePost_owner_only Demo.prims Demo.store
             (Demo.authed Demo.alice (Some "p1") ∅) Demo.alice "p1" "p1"
             Demo.p1); reflexivity.
  - apply (deletePost_owner_only Demo.prims Demo.store
             (Demo.authed Demo.bob (Some "p1") ∅) Demo.bob "p1" "p1"
             Demo.p1); [reflexivity .. | vm_compute; discriminate].
Defined.

(** ** Creation stamps the owner (createPost, sendMessage) *)

(** C5: what createPost and sendMessage store is owned by the resolved
    identity: the store either stays as it was (the document failed
    validation) or grows by one document whose [user], respectively
    [sender], is the caller's id. Any other field of the client's body,
    such as a [user] or [sender] of its own choosing, changes nothing:
    the two runs are equal. *)
Theorem creation_stamps_resolved_identity (P : Primitives) (env : Env)
    (s : Store) (req : Request) (u : User.t) :
  resolved req u →
  let wp := (createPost P env req (World0 s)).2 in
  let wm := (sendMessage P env req (World0 s)).2 in
  (db wp = s
   ∨ ∃ p, Post.user p = User._id u
          ∧ db wp = {| users := users s; posts := posts s ++ [p];
                       messages := messages s |})
  ∧ (db wm = s
     ∨ ∃ m, Message.sender m = User._id u
            ∧ db wm = {| users := users s; posts := posts s;
                         messages := messages s ++ [m] |})
  ∧ (∀ b1 b2 : Doc,
       b1 !! "content" = b2 !! "content" →
       b1 !! "image" = b2 !! "image" →
       createPost P env (set_body b1 req) (World0 s)
       = createPost P env (set_body b2 req) (World0 s))
  ∧ (∀ b1 b2 : Doc,
       b1 !! "recipient" = b2 !! "recipient" →
       b1 !! "content" = b2 !! "content" →
       sendMessage P env (set_body b1 req) (World0 s)
       = sendMessage P env (set_body b2 req) (World0 s)).
Proof.
  intros Hu wp wm. subst wp wm. destruct s as [us ps ms].
  split; [| split; [| split]].
  - unfold createPost, Post_save, bind.
    rewrite (req_user_id_resolved req u _ Hu). simpl.
    unfold required_string, optional_string.
    destruct (body req !! "content" ≫= castString P) as [c|];
      [destruct (bool_decide (c = "")) |]; try (by left).
    destruct (body req !! "image") as [[]|]; simpl;
      try (by left); right; eexists; (split; [| reflexivity]); reflexivity.
  - unfold sendMessage, Message_save, bind.
    rewrite (req_user_id_resolved req u _ Hu). simpl.
    unfold required_id, required_string.
    destruct (body req !! "recipient" ≫= castObjectId P) as [r|];
      [| by left].
    destruct (body req !! "content" ≫= castString P) as [c|];
      [destruct (bool_decide (c = "")) |]; try (by left).
    right; eexists; (split; [| reflexivity]); reflexivity.
  - intros b1 b2 Hc Hi. unfold createPost. simpl. by rewrite Hc, Hi.
  - intros b1 b2 Hr Hc. unfold sendMessage. simpl. by rewrite Hr, Hc.
Qed.

Lemma creation_stamps_resolved_identity_witness :
  createPost Demo.prims Demo.env
    (Demo.authed Demo.alice None
       (<["user" := JStr "u2"]> (<["content" := JStr "x"]> ∅)))
    (World0 Demo.store)
  = createPost Demo.prims Demo.env
      (Demo.authed Demo.alice None
         (<["user" := JStr "u3"]> (<["content" := JStr "x"]> ∅)))
      (World0 Demo.store)
  ∧ Post.user
      <$> posts (db (createPost Demo.prims Demo.env
                       (Demo.authed Demo.alice None
                          (<["user" := JStr "u2"]>
                             (<["content" := JStr "x"]> ∅)))
                       (World0 Demo.store)).2)
    = ["u1"; "u1"].
Proof.
  split; [| reflexivity].
  pose proof (creation_stamps_resolved_identity Demo.prims Demo.env
                Demo.store (Demo.authed Demo.alice None ∅)
                Demo.alice eq_refl) as (_ & _ & H & _).
  apply (H (<["user" := JStr "u2"]> (<["content" := JStr "x"]> ∅))
           (<["user" := JStr "u3"]> (<["content" := JStr "x"]> ∅)));
    reflexivity.
Defined.

(** ** Sending a message (sendMessage) *)

(** C10, as stated, fails: alice sends a body that names a recipient but
    has no content; the schema rejects the document, nothing is stored
    and no response is sent. *)
Lemma sendMessage_counterexample :
  resolved (Demo.authed Demo.alice None (<["recipient" := JStr "u2"]> ∅))
           Demo.alice
  ∧ ¬ sendMessage_answers_201 Demo.prims Demo.env Demo.store
        (Demo.authed Demo.alice None (<["recipient" := JStr "u2"]> ∅)).
Proof.
  split; [reflexivity |].
  intros (m & Hres & _). vm_compute in Hres. discriminate Hres.
Qed.

(** C10, amended: when the body passes the Message schema, that is, its
    [recipient] casts to an ObjectId and its [content] to a non-empty
    string, sendMessage stores the message with the recipient id taken
    from the body and answers 201 with it, whatever the users collection
    holds: no lookup of the recipient takes place. For no request at all
    does sendMessage answer 404. *)
Theorem sendMessage_unchecked_recipient (P : Primitives) (env : Env)
    (s : Store) (req : Request) (u : User.t) (r : ObjectId) (c : string) :
  resolved req u →
  body req !! "recipient" ≫= castObjectId P = Some r →
  body req !! "content" ≫= castString P = Some c →
  c ≠ "" →
  let m := {| Message._id := newId env;
              Message.sender := User._id u;
              Message.recipient := r;
              Message.content := c;
              Message.read := false;
              Message.createdAt := now env;
              Message.updatedAt := now env |} in
  sendMessage P env req (World0 s)
  = (inr tt,
     {| db := {| users := users s; posts := posts s;
                 messages := messages s ++ [m] |};
        res := Some {| status := 201; json := PMsg (plain_message m) |};
        trace := [] |})
  ∧ (∀ (req' : Request) (s' : Store),
       status <$> res (sendMessage P env req' (World0 s')).2
       ≠ Some 404%nat).
Proof.
  intros Hu Hr Hc Hne m. split.
  - unfold sendMessage, Message_save, bind.
    rewrite (req_user_id_resolved req u _ Hu). simpl.
    unfold required_id, required_string. rewrite Hr, Hc.
    rewrite bool_decide_eq_false_2 by done. reflexivity.
  - intros req' s'. unfold sendMessage, Message_save, bind, req_user_id.
    destruct (user req') as [d|]; [| done]. simpl.
    unfold required_id, required_string.
    destruct (d !! "_id" ≫= castObjectId P) as [i|]; [| done].
    destruct (body req' !! "recipient" ≫= castObjectId P) as [r'|];
      [| done].
    destruct (body req' !! "content" ≫= castString P) as [c'|]; [| done].
    destruct (bool_decide (c' = "")); done.
Qed.

Lemma sendMessage_unchecked_recipient_witness :
  List.find (by_id "nobody") (users Demo.store) = None
  ∧ res (sendMessage Demo.prims Demo.env
           (Demo.authed Demo.alice None
              (<["recipient" := JStr "nobody"]>
                 (<["content" := JStr "x"]> ∅)))
           (World0 Demo.store)).2
    = Some {| status := 201;
              json := PMsg (plain_message
                              {| Message._id := "n1";
                                 Message.sender := "u1";
                                 Message.recipient := "nobody";
                                 Message.content := "x";
                                 Message.read := false;
                                 Message.createdAt := 100%N;
                                 Message.updatedAt := 100%N |}) |}.
Proof.
  split; [reflexivity |].
  pose proof (sendMessage_unchecked_recipient Demo.prims Demo.env Demo.store
                (Demo.authed Demo.alice None
                   (<["recipient" := JStr "nobody"]>
                      (<["content" := JStr "x"]> ∅)))
                Demo.alice "nobody" "x" eq_refl eq_refl eq_refl) as H.
  simpl in H. destruct H as [H _]; [discriminate |]. by rewrite H.
Defined.

(** ** Registration (registerUser) *)

(** C3, as stated, fails on the username half: a registration that reuses
    alice's username under a fresh email passes the handler's only check,
    which is by email, and is not turned down with 400. *)
Lemma registerUser_duplicate_username_counterexample :
  User.username Demo.alice = "alice"
  ∧ Demo.alice ∈ users Demo.store
  ∧ EvHash "pw" "salt"
    ∈ trace (registerUser Demo.prims Demo.env
               (Demo.request POST ["register"] None
                  (register_body "alice" "new@example.org" "pw"))
               (World0 Demo.store)).2
  ∧ ¬ rejected_before_hashing Demo.prims Demo.env Demo.store
        (Demo.request POST ["register"] None
           (register_body "alice" "new@example.org" "pw")).
Proof.
  split; [reflexivity |]. split; [by left |].
  split; [vm_compute; apply list_elem_of_here |].
  intros (Hres & _ & _). vm_compute in Hres. discriminate Hres.
Qed.

Lemma find_email_is_Some (e : string) (u : User.t) (us : list User.t) :
  u ∈ us → User.email u = e →
  is_Some (List.find (λ v, bool_decide (User.email v = e)) us).
Proof.
  intros Hin He.
  destruct (List.find _ us) as [v|] eqn:Hf; [by eexists |].
  apply list_elem_of_In in Hin.
  pose proof (find_none _ _ Hf u Hin) as Hn. simpl in Hn.
  by rewrite bool_decide_eq_true_2 in Hn.
Qed.

(** C3, amended: a registration whose email is that of a stored user is
    answered 400 "User already exists" before any password hashing, and
    the store is left as it was, whatever username it carries. *)
Theorem registerUser_duplicate_email (P : Primitives) (env : Env)
    (s : Store) (req : Request) (e : string) (u : User.t) :
  body req !! "email" = Some (JStr e) →
  u ∈ users s →
  User.email u = e →
  rejected_before_hashing P env s req.
Proof.
  intros Hb Hin He. unfold rejected_before_hashing, registerUser.
  unfold User_findOne_email. rewrite Hb. js_unfold.
  destruct (find_email_is_Some e u (users s) Hin He) as [v ->]. simpl.
  repeat split; try done. intros p salt Hp. by apply elem_of_nil in Hp.
Qed.

Lemma registerUser_duplicate_email_witness :
  rejected_before_hashing Demo.prims Demo.env Demo.store
    (Demo.request POST ["register"] None
       (register_body "zed" "alice@example.org" "pw")).
Proof.
  apply (registerUser_duplicate_email Demo.prims Demo.env Demo.store _
           "alice@example.org" Demo.alice);
    [reflexivity | by left | reflexivity].
Defined.

(** ** Login (loginUser) *)

(** C7, as stated, fails when the wrong password is not a string: with
    the password 5, a login for alice's email is left unanswered (the
    password comparison throws) while a login for an email that nobody
    has is answered 401, so the two causes can be told apart. *)
Lemma loginUser_non_string_password_counterexample :
  List.find (λ v, bool_decide (User.email v = "alice@example.org"))
            (users Demo.store) = Some Demo.alice
  ∧ List.find (λ v, bool_decide (User.email v = "nobody@example.org"))
              (users Demo.store) = None
  ∧ ¬ login_failures_alike Demo.prims Demo.env Demo.store
        (Demo.request POST ["login"] None
           (<["email" := JStr "alice@example.org"]>
              (<["password" := JNum 5]> ∅)))
        (Demo.request POST ["login"] None
           (<["email" := JStr "nobody@example.org"]>
              (<["password" := JNum 5]> ∅))).
Proof.
  split; [reflexivity |]. split; [reflexivity |].
  unfold login_failures_alike. intros H. vm_compute in H. discriminate H.
Qed.

(** C7, amended: on one and the same store, for emails given as strings,
    a login with a string password that does not match the stored hash
    of the user with that email, and a login with an email that no stored
    user has, are answered alike: 401 with the body "Invalid email or
    password". *)
Theorem loginUser_failures_indistinguishable (P : Primitives) (env : Env)
    (s : Store) (req1 req2 : Request) (e1 e2 p1 : string) (u : User.t) :
  body req1 !! "email" = Some (JStr e1) →
  body req1 !! "password" = Some (JStr p1) →
  List.find (λ v, bool_decide (User.email v = e1)) (users s) = Some u →
  bcrypt_compare P p1 (User.password u) = false →
  body req2 !! "email" = Some (JStr e2) →
  List.find (λ v, bool_decide (User.email v = e2)) (users s) = None →
  res (loginUser P env req1 (World0 s)).2
  = Some {| status := 401; json := PMessage "Invalid email or password" |}
  ∧ res (loginUser P env req2 (World0 s)).2
    = res (loginUser P env req1 (World0 s)).2.
Proof.
  intros He1 Hp1 Hf Hcmp He2 Hnone.
  assert (H1 : res (loginUser P env req1 (World0 s)).2
               = Some {| status := 401;
                         json := PMessage "Invalid email or password" |}).
  { unfold loginUser, User_findOne_email, matchPassword.
    rewrite He1, Hp1. js_unfold. rewrite Hf. simpl. by rewrite Hcmp. }
  split; [exact H1 |]. rewrite H1.
  unfold loginUser, User_findOne_email. rewrite He2. js_unfold.
  by rewrite Hnone.
Qed.

Lemma loginUser_failures_indistinguishable_witness :
  res (loginUser Demo.prims Demo.env
         (Demo.request POST ["login"] None
            (login_body "nobody@example.org" "alice"))
         (World0 Demo.store)).2
  = res (loginUser Demo.prims Demo.env
           (Demo.request POST ["login"] None
              (login_body "alice@example.org" "guess"))
           (World0 Demo.store)).2.
Proof.
  apply (loginUser_failures_indistinguishable Demo.prims Demo.env Demo.store
           (Demo.request POST ["login"] None
              (login_body "alice@example.org" "guess"))
           (Demo.request POST ["login"] None
              (login_body "nobody@example.org" "alice"))
           "alice@example.org" "nobody@example.org" "guess" Demo.alice);
    reflexivity.
Defined.

(** ** The inbox (getMessages) *)

Global Instance newer_first_msg_total : Total newer_first_msg.
Proof. intros a b. unfold newer_first_msg. lia. Qed.

Global Instance newer_first_msg_trans : Transitive newer_first_msg.
Proof. intros a b c. unfold newer_first_msg. lia. Qed.

(** C8: getMessages answers 200 with the stored messages whose recipient is
    the caller, all of them and no other, each once, ordered so that no
    message comes before a newer one. *)
Theorem getMessages_inbox_newest_first (P : Primitives) (s : Store)
    (req : Request) (u : User.t) :
  resolved req u →
  ∃ ms : list Message.t,
    res (getMessages P req (World0 s)).2
    = Some {| status := 200; json := PMsgs (inbox_view s <$> ms) |}
    ∧ ms ≡ₚ List.filter (addressed_to (User._id u)) (messages s)
    ∧ (∀ m, m ∈ ms ↔ m ∈ messages s ∧ Message.recipient m = User._id u)
    ∧ StronglySorted newer_first_msg ms.
Proof.
  intros Hu.
  exists (merge_sort newer_first_msg
            (List.filter (addressed_to (User._id u)) (messages s))).
  split; [| split; [| split]].
  - unfold getMessages, Message_find_recipient, bind.
    rewrite (req_user_id_resolved req u _ Hu). reflexivity.
  - apply merge_sort_Permutation.
  - intros m. rewrite merge_sort_Permutation.
    rewrite list_elem_of_In, filter_In, <- list_elem_of_In.
    unfold addressed_to. by rewrite bool_decide_eq_true.
  - apply StronglySorted_merge_sort; apply _.
Qed.

Lemma getMessages_inbox_newest_first_witness :
  ∃ ms : list Message.t,
    res (getMessages Demo.prims (Demo.authed Demo.bob None ∅)
           (World0 Demo.store)).2
    = Some {| status := 200; json := PMsgs (inbox_view Demo.store <$> ms) |}
    ∧ ms ≡ₚ [Demo.m1; Demo.m2]
    ∧ StronglySorted newer_first_msg ms.
Proof.
  destruct (getMessages_inbox_newest_first Demo.prims Demo.store
              (Demo.authed Demo.bob None ∅) Demo.bob eq_refl)
    as (ms & Hres & Hperm & _ & Hsorted).
  exists ms. split; [exact Hres |]. split; [exact Hperm | exact Hsorted].
Defined.

(** ** The gate (authMiddleware) and the routers *)

Section Gate.
Context (P : Primitives) (env : Env).

(** Without a token that verifies, the gate never calls [next]: it
    behaves the same under every continuation, and adds nothing to the
    trace. *)
Lemma authMiddleware_rejects (req : Request) (next : Request → Js unit)
    (w : World) :
  verified_subject P env req = None →
  authMiddleware P env req next w
  = authMiddleware P env req (λ _, ret tt) w
  ∧ trace (authMiddleware P env req next w).2 = trace w.
Proof.
  unfold verified_subject, bearer_token, authMiddleware, jwt_verify.
  destruct (authorization req) as [h|];
    [| intros _; js_unfold; by destruct (res w)].
  destruct (startsWith "Bearer" h);
    [| intros _; js_unfold; by destruct (res w)].
  destruct (split_on space h !! 1%nat) as [t|];
    [| intros _; js_unfold; by destruct (res w)].
  destruct (bool_decide (t = "")) eqn:Ht.
  - intros _. js_unfold. destruct (res w); simpl; by rewrite ?Ht.
  - intros Hj. js_unfold. rewrite Hj. simpl.
    destruct (res w); simpl; by rewrite ?Ht.
Qed.

(** With a token that verifies, the gate hands the request on with
    [req.user] set, whether or not the subject is stored, and does
    nothing else. *)
Lemma authMiddleware_passes (req : Request) (next : Request → Js unit)
    (w : World) (i : ObjectId) :
  verified_subject P env req = Some i →
  (∀ r w', (next r w').1 = inr tt) →
  authMiddleware P env req next w = next (attached (db w) i req) w.
Proof.
  unfold verified_subject, bearer_token, authMiddleware, jwt_verify.
  destruct (authorization req) as [h|]; [| done].
  destruct (startsWith "Bearer" h); [| done].
  destruct (split_on space h !! 1%nat) as [t|]; [| done].
  destruct (bool_decide (t = "")) eqn:Ht; [done |].
  intros Hj Hnext. unfold User_findById, attached, by_id.
  js_unfold. rewrite Hj. simpl.
  specialize (Hnext
    (set_user (select_exclude "password"
                 <$> (user_doc
                        <$> List.find (λ u, bool_decide (User._id u = i))
                                      (users (db w)))) req) w).
  destruct (next _ w) as [[e|[]] w'] eqn:Hn; simpl in *; [done |].
  unfold truthy. by rewrite Ht.
Qed.

Lemma probe_returns (r : Request) (w : World) : (probe r w).1 = inr tt.
Proof. done. Qed.

Lemma verified_subject_header (req : Request) (i : ObjectId) :
  verified_subject P env req = Some i →
  ∃ hdr t, authorization req = Some hdr
           ∧ startsWith "Bearer" hdr = true
           ∧ split_on space hdr !! 1%nat = Some t
           ∧ jwt_check P t (now env) = Some i.
Proof.
  unfold verified_subject, bearer_token.
  destruct (authorization req) as [h|]; [| done].
  destruct (startsWith "Bearer" h) eqn:Hs; [| done].
  destruct (split_on space h !! 1%nat) as [t|] eqn:Ht; [| done].
  destruct (bool_decide (t = "")); [done |].
  intros Hj. by exists h, t.
Qed.

(** Entered through the gate, no handler runs for a request whose token
    does not verify, whatever layers come after the gate. *)
Lemma gate_runs_nothing (next : Request → Js unit) (req : Request)
    (s : Store) (h : HandlerName) (r : Request) :
  verified_subject P env req = None →
  EvHandler h r
    ∉ trace (detached (authMiddleware P env req next) (World0 s)).2.
Proof.
  intros Hv Hin. unfold detached, try_catch in Hin.
  destruct (authMiddleware_rejects req next (World0 s) Hv) as [_ Ht].
  destruct (authMiddleware P env req next (World0 s))
    as [[e|[]] w'] eqn:Hr; simpl in *.
  - unfold emit in Hin. simpl in Hin. rewrite Ht in Hin.
    apply elem_of_cons in Hin as [Hin | Hin]; [done |].
    by apply elem_of_nil in Hin.
  - rewrite Ht in Hin. by apply elem_of_nil in Hin.
Qed.
End Gate.

(** C9: whenever a handler runs for a request under /api/posts or
    /api/messages, whatever the method and the rest of the path, the
    request bore an Authorization header starting with Bearer whose token
    verified: both routers are entered through the gate. *)
Theorem protected_routes_behind_gate (P : Primitives) (env : Env)
    (s : Store) (req : Request) (rest : list string)
    (h : HandlerName) (r : Request) :
  path req = "api" :: "posts" :: rest
  ∨ path req = "api" :: "messages" :: rest →
  EvHandler h r ∈ trace (app P env req (World0 s)).2 →
  ∃ hdr t i, authorization req = Some hdr
             ∧ startsWith "Bearer" hdr = true
             ∧ split_on space hdr !! 1%nat = Some t
             ∧ jwt_check P t (now env) = Some i.
Proof.
  intros Hpath Hin.
  destruct (verified_subject P env req) as [i|] eqn:Hv.
  { destruct (verified_subject_header P env req i Hv) as (hdr & t & H).
    by exists hdr, t, i. }
  exfalso. unfold app, mounted in Hin.
  destruct Hpath as [Hp | Hp]; rewrite Hp in Hin; simpl in Hin;
    revert Hin; by apply gate_runs_nothing.
Qed.

Lemma protected_routes_behind_gate_witness :
  ∃ hdr t i,
    authorization (Demo.request GET ["api"; "posts"]
                     (Some "Bearer jwt.u1") ∅) = Some hdr
    ∧ startsWith "Bearer" hdr = true
    ∧ split_on space hdr !! 1%nat = Some t
    ∧ jwt_check Demo.prims t (now Demo.env) = Some i.
Proof.
  apply (protected_routes_behind_gate Demo.prims Demo.env Demo.store
           (Demo.request GET ["api"; "posts"] (Some "Bearer jwt.u1") ∅)
           [] h_getPosts
           (attached Demo.store "u1"
              (set_path []
                 (Demo.request GET ["api"; "posts"]
                    (Some "Bearer jwt.u1") ∅)))).
  - left. reflexivity.
  - vm_compute. apply list_elem_of_here.
Defined.

(** C6: a request that the gate hands on carries the stored user named by
    its token with the [password] field removed: that field is absent,
    and every other field of the user's document is there with its stored
    value. *)
Theorem gate_attaches_identity_without_password (P : Primitives)
    (env : Env) (s : Store) (req r : Request) :
  EvNext r ∈ trace (authMiddleware P env req probe (World0 s)).2 →
  ∃ i, verified_subject P env req = Some i
       ∧ r = attached s i req
       ∧ ∀ d, user r = Some d →
              d !! "password" = None
              ∧ ∃ u, List.find (by_id i) (users s) = Some u
                     ∧ User._id u = i
                     ∧ ∀ k, k ≠ "password" → d !! k = user_doc u !! k.
Proof.
  intros Hin.
  destruct (verified_subject P env req) as [i|] eqn:Hv.
  - exists i. split; [done |].
    rewrite (authMiddleware_passes P env req probe (World0 s) i Hv
               probe_returns) in Hin.
    simpl in Hin. apply elem_of_cons in Hin as [[= ->] | Hin];
      [| by apply elem_of_nil in Hin].
    split; [done |]. intros d. unfold attached, set_user. simpl.
    destruct (List.find (by_id i) (users s)) as [u|] eqn:Hf; [| done].
    intros [= <-]. split; [apply user_doc_no_password |].
    exists u. split; [done |]. split.
    + apply find_some in Hf as [_ Hf]. unfold by_id in Hf.
      by apply bool_decide_eq_true in Hf.
    + intros k Hk. by apply user_doc_other_fields.
  - destruct (authMiddleware_rejects P env req probe (World0 s) Hv)
      as [_ Ht].
    rewrite Ht in Hin. by apply elem_of_nil in Hin.
Qed.

Lemma gate_attaches_identity_without_password_witness :
  ∃ d, user (attached Demo.store "u1"
               (Demo.request GET [] (Some "Bearer jwt.u1") ∅)) = Some d
       ∧ d !! "password" = None
       ∧ d !! "email" = Some (JStr "alice@example.org").
Proof.
  destruct (gate_attaches_identity_without_password Demo.prims Demo.env
              Demo.store
              (Demo.request GET [] (Some "Bearer jwt.u1") ∅)
              (attached Demo.store "u1"
                 (Demo.request GET [] (Some "Bearer jwt.u1") ∅)))
    as (i & Hi & _ & Hd).
  - vm_compute. apply list_elem_of_here.
  - exists (Demo.identity Demo.alice).
    split; [reflexivity |].
    destruct (Hd (Demo.identity Demo.alice) eq_refl) as [Hp _].
    split; [exact Hp | reflexivity].
Defined.

(** C2, on the code: a token that verifies for a subject no longer stored
    is not turned down. The gate sets [req.user] to [null] and hands the
    request on: GET /api/posts is answered 200 by getPosts, and
    POST /api/posts reaches createPost, which throws on [req.user._id]
    and leaves the request unanswered. *)
Theorem gate_passes_unknown_subject :
  verified_subject Demo.prims Demo.env
    (Demo.request GET ["api"; "posts"] (Some "Bearer jwt.gone") ∅)
  = Some "gone"
  ∧ List.find (by_id "gone") (users Demo.store) = None
  ∧ authMiddleware Demo.prims Demo.env
      (Demo.request GET [] (Some "Bearer jwt.gone") ∅) probe
      (World0 Demo.store)
    = (inr tt,
       {| db := Demo.store; res := None;
          trace := [EvNext (Demo.request GET [] (Some "Bearer jwt.gone") ∅)]
       |})
  ∧ status
      <$> res (app Demo.prims Demo.env
                 (Demo.request GET ["api"; "posts"]
                    (Some "Bearer jwt.gone") ∅)
                 (World0 Demo.store)).2
    = Some 200%nat
  ∧ trace (app Demo.prims Demo.env
             (Demo.request GET ["api"; "posts"] (Some "Bearer jwt.gone") ∅)
             (World0 Demo.store)).2
    = [EvHandler h_getPosts
         (Demo.request GET [] (Some "Bearer jwt.gone") ∅)]
  ∧ res (app Demo.prims Demo.env
           (Demo.request POST ["api"; "posts"] (Some "Bearer jwt.gone")
              (<["content" := JStr "x"]> ∅))
           (World0 Demo.store)).2
    = None
  ∧ trace (app Demo.prims Demo.env
             (Demo.request POST ["api"; "posts"] (Some "Bearer jwt.gone")
                (<["content" := JStr "x"]> ∅))
             (World0 Demo.store)).2
    = [EvUnhandledRejection TypeError;
       EvHandler h_createPost
         (Demo.request POST [] (Some "Bearer jwt.gone")
            (<["content" := JStr "x"]> ∅))].
Proof. repeat split; reflexivity. Qed.

(** * Further properties of the backend *)

(** ** How the gate turns a request down *)

(** X1: a request without an Authorization header, or with one that does
    not start with Bearer, is answered 401 "Not authorized, no token";
    [next] is not called and the store is not touched. *)
Theorem authMiddleware_no_bearer_header (P : Primitives) (env : Env)
    (s : Store) (req : Request) (next : Request → Js unit) :
  (∀ h, authorization req = Some h → startsWith "Bearer" h = false) →
  authMiddleware P env req next (World0 s)
  = (inr tt, {| db := s; res := Some no_token_401; trace := [] |}).
Proof.
  intros Hh. unfold authMiddleware.
  destruct (authorization req) as [h|]; [| reflexivity].
  by rewrite (Hh h eq_refl).
Qed.

Lemma authMiddleware_no_bearer_header_witness :
  authMiddleware Demo.prims Demo.env
    (Demo.request GET [] (Some "Basic YWxpY2U6cHc=") ∅) probe
    (World0 Demo.store)
  = (inr tt, {| db := Demo.store; res := Some no_token_401; trace := [] |}).
Proof.
  apply (authMiddleware_no_bearer_header Demo.prims Demo.env Demo.store
           (Demo.request GET [] (Some "Basic YWxpY2U6cHc=") ∅) probe).
  intros h [= <-]. reflexivity.
Defined.

(** X2: a Bearer header whose token is there but does not verify is
    answered 401 "Not authorized, token failed", once; [next] is not
    called and the store is not touched. *)
Theorem authMiddleware_token_failed (P : Primitives) (env : Env)
    (s : Store) (req : Request) (next : Request → Js unit)
    (h t : string) :
  authorization req = Some h →
  startsWith "Bearer" h = true →
  split_on space h !! 1%nat = Some t →
  t ≠ "" →
  jwt_check P t (now env) = None →
  authMiddleware P env req next (World0 s)
  = (inr tt, {| db := s; res := Some token_failed_401; trace := [] |}).
Proof.
  intros Hh Hs Ht Hne Hj. unfold authMiddleware, jwt_verify.
  rewrite Hh, Hs, Ht. js_unfold.
  rewrite (bool_decide_eq_false_2 _ Hne), Hj. simpl.
  by rewrite (bool_decide_eq_false_2 _ Hne).
Qed.

Lemma authMiddleware_token_failed_witness :
  authMiddleware Demo.prims Demo.env
    (Demo.request GET [] (Some "Bearer forged") ∅) probe
    (World0 Demo.store)
  = (inr tt,
     {| db := Demo.store; res := Some token_failed_401; trace := [] |}).
Proof.
  apply (authMiddleware_token_failed Demo.prims Demo.env Demo.store
           (Demo.request GET [] (Some "Bearer forged") ∅) probe
           "Bearer forged" "forged");
    [reflexivity | reflexivity | reflexivity | discriminate | reflexivity].
Defined.

(** X3: a header that starts with Bearer but carries no token after the
    first space (nothing, or the empty piece before a second space) is
    answered 401 "Not authorized, token failed"; the gate then goes on to
    its no-token branch, whose second send finds the response already
    sent and throws. The client sees the first answer only. *)
Theorem authMiddleware_bearer_without_token (P : Primitives) (env : Env)
    (s : Store) (req : Request) (next : Request → Js unit) (h : string) :
  authorization req = Some h →
  startsWith "Bearer" h = true →
  truthy (split_on space h !! 1%nat) = false →
  authMiddleware P env req next (World0 s)
  = (inl HeadersSentError,
     {| db := s; res := Some token_failed_401; trace := [] |}).
Proof.
  intros Hh Hs Ht. unfold authMiddleware, jwt_verify.
  rewrite Hh, Hs. unfold truthy in Ht.
  destruct (split_on space h !! 1%nat) as [t|].
  - apply negb_false_iff in Ht. js_unfold. rewrite Ht. simpl.
    by rewrite Ht.
  - reflexivity.
Qed.

Lemma authMiddleware_bearer_without_token_witness :
  authMiddleware Demo.prims Demo.env
    (Demo.request GET [] (Some "Bearer") ∅) probe (World0 Demo.store)
  = (inl HeadersSentError,
     {| db := Demo.store; res := Some token_failed_401; trace := [] |})
  ∧ authMiddleware Demo.prims Demo.env
      (Demo.request GET [] (Some "Bearer  jwt.u1") ∅) probe
      (World0 Demo.store)
    = (inl HeadersSentError,
       {| db := Demo.store; res := Some token_failed_401; trace := [] |}).
Proof.
  split.
  - apply (authMiddleware_bearer_without_token Demo.prims Demo.env
             Demo.store (Demo.request GET [] (Some "Bearer") ∅) probe
             "Bearer"); reflexivity.
  - apply (authMiddleware_bearer_without_token Demo.prims Demo.env
             Demo.store (Demo.request GET [] (Some "Bearer  jwt.u1") ∅)
             probe "Bearer  jwt.u1"); reflexivity.
Defined.

(** ** The gate inside a router *)

Lemma finalhandler_returns (w : World) : (finalhandler w).1 = inr tt.
Proof. unfold finalhandler, send. by destruct (res w). Qed.

Lemma detached_returns (c : Js unit) (w : World) :
  (detached c w).1 = inr tt.
Proof.
  unfold detached, try_catch, emit. by destruct (c w) as [[e|[]] w'].
Qed.

Lemma detached_of_returning (c : Js unit) (w : World) :
  (c w).1 = inr tt → detached c w = c w.
Proof.
  unfold detached, try_catch. destruct (c w) as [[e|[]] w']; by simpl.
Qed.

Lemma run_layers_returns (ls : list Layer) (exit : Request → Js unit) :
  (∀ r w, (exit r w).1 = inr tt) →
  ∀ req w, (run_layers ls exit req w).1 = inr tt.
Proof.
  intros Hexit. induction ls as [|[mw | m pat name h] ls IH]; intros req w.
  - apply Hexit.
  - apply detached_returns.
  - simpl. destruct (match_route m pat req) as [req'|]; [| apply IH].
    unfold bind, emit. apply detached_returns.
Qed.

(** X4: in a router that opens with the gate, a request whose token
    verifies goes through the remaining layers exactly as if it had
    arrived there with [req.user] already set: the gate sends nothing,
    records nothing and leaves the store alone. *)
Theorem gated_router_attaches_and_continues (P : Primitives) (env : Env)
    (rest : list Layer) (exit : Request → Js unit) (req : Request)
    (w : World) (i : ObjectId) :
  verified_subject P env req = Some i →
  (∀ r w', (exit r w').1 = inr tt) →
  run_layers (Use (authMiddleware P env) :: rest) exit req w
  = run_layers rest exit (attached (db w) i req) w.
Proof.
  intros Hv Hexit. simpl.
  pose proof (run_layers_returns rest exit Hexit) as Hret.
  rewrite detached_of_returning;
    rewrite (authMiddleware_passes P env req _ w i Hv Hret);
    [done | apply Hret].
Qed.

Lemma gated_router_attaches_and_continues_witness :
  run_layers (postRoutes Demo.prims Demo.env) (λ _, finalhandler)
    (Demo.request GET [] (Some "Bearer jwt.u2") ∅) (World0 Demo.store)
  = run_layers (tail (postRoutes Demo.prims Demo.env)) (λ _, finalhandler)
      (attached Demo.store "u2"
         (Demo.request GET [] (Some "Bearer jwt.u2") ∅))
      (World0 Demo.store).
Proof.
  apply (gated_router_attaches_and_continues Demo.prims Demo.env
           (tail (postRoutes Demo.prims Demo.env)) (λ _, finalhandler)
           (Demo.request GET [] (Some "Bearer jwt.u2") ∅)
           (World0 Demo.store) "u2").
  - reflexivity.
  - intros r w'. apply finalhandler_returns.
Defined.

(** ** The role gate (roleMiddleware) *)




(** ** Registration and login together *)

Lemma fresh_email_not_found (un em : string) (us : list User.t) :
  violates_unique un em us = false →
  List.find (λ u, bool_decide (User.email u = em)) us = None.
Proof.
  unfold violates_unique. induction us as [|u us IH]; [done |]. simpl.
  intros H. apply orb_false_iff in H as [H1 H2].
  apply orb_false_iff in H1 as [_ H1]. rewrite H1. by apply IH.
Qed.

Lemma find_snoc_new {A} (f : A → bool) (l : list A) (x : A) :
  List.find f l = None → f x = true → List.find f (l ++ [x]) = Some x.
Proof.
  induction l as [|y l IH]; simpl; intros Hl Hx; [by rewrite Hx |].
  destruct (f y); [done | by apply IH].
Qed.

Section Registration.
Context (P : Primitives) (env : Env).

Lemma registerUser_fresh_run (s : Store) (req : Request)
    (un em pw : string) :
  body req !! "username" = Some (JStr un) →
  body req !! "email" = Some (JStr em) →
  body req !! "password" = Some (JStr pw) →
  un ≠ "" → em ≠ "" → pw ≠ "" →
  violates_unique un em (users s) = false →
  registerUser P env req (World0 s)
  = (inr tt,
     {| db := {| users := users s ++ [registered P env un em pw];
                 posts := posts s; messages := messages s |};
        res := Some {| status := 201;
                       json := PAuth (newId env) un em
                                     (jwt_sign P (newId env) (now env)) |};
        trace := [EvHash pw (genSalt env)] |}).
Proof.
  intros Hun Hem Hpw Nun Nem Npw Hfresh.
  unfold registerUser, User_findOne_email, User_create, required_string.
  rewrite Hun, Hem, Hpw. js_unfold.
  rewrite (fresh_email_not_found un em _ Hfresh). simpl.
  rewrite !bool_decide_eq_false_2 by done. simpl.
  by rewrite Hfresh.
Qed.
End Registration.

(** X6: a registration with a non-empty username, email and password,
    none of the first two in use, is answered 201 with the new id, the
    username, the email and a token issued for the new id. Exactly one
    user is appended to the store, and what is stored as its password is
    the salted hash; posts and messages are not touched, and the password
    is hashed once. *)
Theorem registerUser_fresh_identity (P : Primitives) (env : Env)
    (s : Store) (req : Request) (un em pw : string) :
  body req !! "username" = Some (JStr un) →
  body req !! "email" = Some (JStr em) →
  body req !! "password" = Some (JStr pw) →
  un ≠ "" → em ≠ "" → pw ≠ "" →
  violates_unique un em (users s) = false →
  let w := (registerUser P env req (World0 s)).2 in
  res w = Some {| status := 201;
                  json := PAuth (newId env) un em
                                (generateToken P env (newId env)) |}
  ∧ (∃ u : User.t, users (db w) = (users s ++ [u])%list
          ∧ User._id u = newId env
          ∧ User.username u = un
          ∧ User.email u = em
          ∧ User.password u = bcrypt_hash P pw (genSalt env))
  ∧ posts (db w) = posts s
  ∧ messages (db w) = messages s
  ∧ trace w = [EvHash pw (genSalt env)].
Proof.
  intros Hun Hem Hpw Nun Nem Npw Hfresh w. subst w.
  rewrite (registerUser_fresh_run P env s req un em pw) by done. simpl.
  repeat split; try done. by exists (registered P env un em pw).
Qed.

Lemma registerUser_fresh_identity_witness :
  res (registerUser Demo.prims Demo.env
         (Demo.request POST ["register"] None
            (register_body "zed" "zed@example.org" "pw"))
         (World0 Demo.store)).2
  = Some {| status := 201;
            json := PAuth "n1" "zed" "zed@example.org" "jwt.n1" |}.
Proof.
  apply (registerUser_fresh_identity Demo.prims Demo.env Demo.store
           (Demo.request POST ["register"] None
              (register_body "zed" "zed@example.org" "pw"))
           "zed" "zed@example.org" "pw");
    (reflexivity || discriminate).
Defined.

(** X7: registering and then logging in with the same email and password
    succeeds, provided the hashing library accepts a password against its
    own hash: the login is answered 200 with the id, username and email
    that were registered and a token for that id. *)
Theorem register_then_login (P : Primitives) (env env' : Env)
    (s : Store) (req req' : Request) (un em pw : string) :
  body req !! "username" = Some (JStr un) →
  body req !! "email" = Some (JStr em) →
  body req !! "password" = Some (JStr pw) →
  un ≠ "" → em ≠ "" → pw ≠ "" →
  violates_unique un em (users s) = false →
  bcrypt_compare P pw (bcrypt_hash P pw (genSalt env)) = true →
  body req' !! "email" = Some (JStr em) →
  body req' !! "password" = Some (JStr pw) →
  res (loginUser P env' req'
         (World0 (db (registerUser P env req (World0 s)).2))).2
  = Some {| status := 200;
            json := PAuth (newId env) un em
                          (generateToken P env' (newId env)) |}.
Proof.
  intros Hun Hem Hpw Nun Nem Npw Hfresh Hcmp Hem' Hpw'.
  rewrite (registerUser_fresh_run P env s req un em pw) by done. simpl.
  unfold loginUser, User_findOne_email, matchPassword.
  rewrite Hem', Hpw'. js_unfold.
  rewrite (find_snoc_new _ (users s) (registered P env un em pw)).
  - simpl. by rewrite Hcmp.
  - by apply (fresh_email_not_found un).
  - simpl. by apply bool_decide_eq_true_2.
Qed.

Lemma register_then_login_witness :
  res (loginUser Demo.prims Demo.env
         (Demo.request POST ["login"] None
            (login_body "zed@example.org" "pw"))
         (World0 (db (registerUser Demo.prims Demo.env
                        (Demo.request POST ["register"] None
                           (register_body "zed" "zed@example.org" "pw"))
                        (World0 Demo.store)).2))).2
  = Some {| status := 200;
            json := PAuth "n1" "zed" "zed@example.org" "jwt.n1" |}.
Proof.
  apply (register_then_login Demo.prims Demo.env Demo.env Demo.store
           (Demo.request POST ["register"] None
              (register_body "zed" "zed@example.org" "pw"))
           (Demo.request POST ["login"] None
              (login_body "zed@example.org" "pw"))
           "zed" "zed@example.org" "pw");
    (reflexivity || discriminate).
Defined.

(** ** Usernames and emails stay unique *)

Lemma fresh_not_in (un em : string) (us : list User.t) :
  violates_unique un em us = false →
  (un ∉ User.username <$> us) ∧ (em ∉ User.email <$> us).
Proof.
  unfold violates_unique. induction us as [|u us IH]; simpl.
  - intros _. split; apply not_elem_of_nil.
  - intros H. apply orb_false_iff in H as [H1 H2].
    apply orb_false_iff in H1 as [Hu He].
    apply bool_decide_eq_false in Hu, He.
    destruct (IH H2) as [IHu IHe].
    split; apply not_elem_of_cons; (split; [by intros -> | done]).
Qed.

Lemma User_findOne_email_world (P : Primitives) (q : option JValue)
    (w : World) :
  (User_findOne_email P q w).2 = w.
Proof.
  unfold User_findOne_email. destruct q as [[]|]; simpl; try done;
    by destruct (castString P _).
Qed.

Lemma User_create_keeps_unique (P : Primitives) (env : Env)
    (a b c : option JValue) (w : World) :
  NoDup (User.username <$> users (db w)) →
  NoDup (User.email <$> users (db w)) →
  NoDup (User.username <$> users (db (User_create P env a b c w).2))
  ∧ NoDup (User.email <$> users (db (User_create P env a b c w).2)).
Proof.
  intros Hu He. unfold User_create, required_string. js_unfold.
  destruct (a ≫= castString P) as [un|]; simpl; [| done].
  destruct (bool_decide (un = "")); simpl; [done |].
  destruct (b ≫= castString P) as [em|]; simpl; [| done].
  destruct (bool_decide (em = "")); simpl; [done |].
  destruct (c ≫= castString P) as [pw|]; simpl; [| done].
  destruct (bool_decide (pw = "")); simpl; [done |].
  destruct (violates_unique un em (users (db w))) eqn:Hfresh; simpl;
    [done |].
  destruct (fresh_not_in un em (users (db w)) Hfresh) as [Hnu Hne].
  rewrite !fmap_app. simpl.
  split; apply NoDup_app; (split; [done |]);
    (split; [| apply NoDup_singleton]);
    intros x Hx Hx'; apply list_elem_of_singleton in Hx'; by subst.
Qed.

(** X8: registerUser keeps usernames and emails unique: if no two stored
    users share a username and no two share an email, the same holds of
    the store after any registration request, accepted or not. *)
Theorem registerUser_keeps_identities_unique (P : Primitives) (env : Env)
    (s : Store) (req : Request) :
  NoDup (User.username <$> users s) →
  NoDup (User.email <$> users s) →
  let w := (registerUser P env req (World0 s)).2 in
  NoDup (User.username <$> users (db w))
  ∧ NoDup (User.email <$> users (db w)).
Proof.
  intros Hu He w. subst w. unfold registerUser, bind.
  pose proof (User_findOne_email_world P (body req !! "email") (World0 s))
    as Hw.
  destruct (User_findOne_email P (body req !! "email") (World0 s))
    as [[e|[v|]] w1]; simpl in Hw; subst w1; simpl; [done | done |].
  pose proof (User_create_keeps_unique P env (body req !! "username")
                (body req !! "email") (body req !! "password") (World0 s)
                Hu He) as Hc.
  destruct (User_create P env _ _ _ (World0 s)) as [[e|u] w2]; simpl in *;
    [done |].
  unfold send. by destruct (res w2).
Qed.

Lemma registerUser_keeps_identities_unique_witness :
  NoDup (User.username
           <$> users (db (registerUser Demo.prims Demo.env
                            (Demo.request POST ["register"] None
                               (register_body "zed" "zed@example.org" "pw"))
                            (World0 Demo.store)).2))
  ∧ NoDup (User.email
             <$> users (db (registerUser Demo.prims Demo.env
                              (Demo.request POST ["register"] None
                                 (register_body "zed" "zed@example.org"
                                                "pw"))
                              (World0 Demo.store)).2)).
Proof.
  apply (registerUser_keeps_identities_unique Demo.prims Demo.env
           Demo.store
           (Demo.request POST ["register"] None
              (register_body "zed" "zed@example.org" "pw")));
    apply (bool_decide_unpack _); vm_compute; exact I.
Defined.

(** ** Login *)




(** ** Posts read by everyone (getPosts, getPost) *)

Global Instance newer_first_post_total : Total newer_first_post.
Proof. intros a b. unfold newer_first_post. lia. Qed.

Global Instance newer_first_post_trans : Transitive newer_first_post.
Proof. intros a b c. unfold newer_first_post. lia. Qed.

(** X10: getPosts answers every request, with or without a resolved
    identity, 200 with all the stored posts, each once, ordered so that
    no post comes before a newer one, each with its author populated;
    the store is not changed. *)
Theorem getPosts_all_newest_first (s : Store) (req : Request) :
  ∃ ps : list Post.t,
    getPosts req (World0 s)
    = (inr tt,
       {| db := s;
          res := Some {| status := 200;
                         json := PPosts (populated_post s <$> ps) |};
          trace := [] |})
    ∧ ps ≡ₚ posts s
    ∧ StronglySorted newer_first_post ps.
Proof.
  exists (merge_sort newer_first_post (posts s)).
  split; [reflexivity |]. split.
  - apply merge_sort_Permutation.
  - apply StronglySorted_merge_sort; apply _.
Qed.

(** X11: getPost does not look at the caller and never changes the
    store. For an id that is an ObjectId it answers 200 with the populated
    post when a post has that id and 404 "Post not found" when none has;
    for an id that is no ObjectId the lookup throws and the request is
    left unanswered; without an id the lookup finds nothing and the answer
    is 404. *)
Theorem getPost_outcomes (P : Primitives) (s : Store) (req : Request) :
  let out := getPost P req (World0 s) in
  db out.2 = s
  ∧ match params_id req with
    | Some i =>
        match parseObjectId P i with
        | Some k =>
            out.1 = inr tt
            ∧ match List.find (post_with_id k) (posts s) with
              | Some p =>
                  res out.2
                  = Some {| status := 200;
                            json := PPost (populated_post s p) |}
              | None =>
                  res out.2
                  = Some {| status := 404;
                            json := PMessage "Post not found" |}
              end
        | None => out.1 = inl CastError ∧ res out.2 = None
        end
    | None =>
        out.1 = inr tt
        ∧ res out.2
          = Some {| status := 404; json := PMessage "Post not found" |}
    end.
Proof.
  intros out. subst out. unfold getPost, Post_findById, post_with_id.
  destruct (params_id req) as [i|]; [| done].
  destruct (parseObjectId P i) as [k|]; [| done].
  js_unfold. by destruct (List.find _ (posts s)).
Qed.

(** ** Deleting, again *)

Lemma deletePost_owner_run (P : Primitives) (s : Store) (req : Request)
    (u : User.t) (i : string) (k : ObjectId) (p : Post.t) (t : list Event) :
  resolved req u →
  params_id req = Some i →
  parseObjectId P i = Some k →
  List.find (post_with_id k) (posts s) = Some p →
  deletePost P req {| db := s; res := None; trace := t |}
  = if bool_decide (Post.user p = User._id u)
    then (inr tt,
          {| db := {| users := users s;
                      posts := List.filter
                                 (λ q, negb (bool_decide (Post._id q = k)))
                                 (posts s);
                      messages := messages s |};
             res := Some {| status := 200;
                            json := PMessage "Post removed" |};
             trace := t |})
    else (inr tt,
          {| db := s;
             res := Some {| status := 404;
                            json := PMessage "Post not found" |};
             trace := t |}).
Proof.
  intros Hu Hi Hk Hp.
  assert (Hid : Post._id p = k).
  { apply find_some in Hp as [_ Hp]. unfold post_with_id in Hp.
    by apply bool_decide_eq_true in Hp. }
  unfold deletePost, Post_findById. rewrite Hi. simpl. rewrite Hk.
  unfold post_with_id in *. js_unfold. rewrite Hp. simpl.
  rewrite (req_user_id_resolved req u _ Hu). simpl.
  unfold ObjectId_equals. simpl.
  destruct (bool_decide (Post.user p = User._id u)); simpl; [| done].
  unfold Post_remove. js_unfold. by rewrite Hid.
Qed.

Lemma deletePost_missing_run (P : Primitives) (s : Store) (req : Request)
    (i : string) (k : ObjectId) (t : list Event) :
  params_id req = Some i →
  parseObjectId P i = Some k →
  List.find (post_with_id k) (posts s) = None →
  deletePost P req {| db := s; res := None; trace := t |}
  = (inr tt,
     {| db := s;
        res := Some {| status := 404; json := PMessage "Post not found" |};
        trace := t |}).
Proof.
  intros Hi Hk Hp. unfold deletePost, Post_findById. rewrite Hi. simpl.
  rewrite Hk. unfold post_with_id in *. js_unfold. by rewrite Hp.
Qed.

(** X12: asked to delete a post that is not stored, deletePost answers
    404 "Post not found" without looking at the caller, so also when
    [req.user] is [null]; asked to delete a stored post on a request whose
    [req.user] is [null], it throws on [req.user._id]: nothing is sent and
    nothing is removed. *)
Theorem deletePost_missing_or_anonymous (P : Primitives) (s : Store)
    (req : Request) (i : string) (k : ObjectId) :
  params_id req = Some i →
  parseObjectId P i = Some k →
  (List.find (post_with_id k) (posts s) = None →
   deletePost P req (World0 s)
   = (inr tt,
      {| db := s;
         res := Some {| status := 404; json := PMessage "Post not found" |};
         trace := [] |}))
  ∧ (is_Some (List.find (post_with_id k) (posts s)) →
     user req = None →
     deletePost P req (World0 s) = (inl TypeError, World0 s)).
Proof.
  intros Hi Hk. split.
  - intros Hp. by apply (deletePost_missing_run P s req i k []).
  - intros [p Hp] Hu. unfold deletePost, Post_findById, req_user_id.
    rewrite Hi. simpl. rewrite Hk. unfold post_with_id in *. js_unfold.
    rewrite Hp. simpl. by rewrite Hu.
Qed.

Lemma deletePost_missing_or_anonymous_witness :
  res (deletePost Demo.prims
           (set_params_id (Some "p9") (Demo.request DELETE [] None ∅))
           (World0 Demo.store)).2
    = Some {| status := 404; json := PMessage "Post not found" |}
  ∧ deletePost Demo.prims
      (set_params_id (Some "p1") (Demo.request DELETE [] None ∅))
      (World0 Demo.store)
    = (inl TypeError, World0 Demo.store).
Proof.
  split.
  - destruct (deletePost_missing_or_anonymous Demo.prims Demo.store
                (set_params_id (Some "p9") (Demo.request DELETE [] None ∅))
                "p9" "p9" eq_refl eq_refl) as [H _].
    by rewrite (H eq_refl).
  - destruct (deletePost_missing_or_anonymous Demo.prims Demo.store
                (set_params_id (Some "p1") (Demo.request DELETE [] None ∅))
                "p1" "p1" eq_refl eq_refl) as [_ H].
    apply H; [by eexists | reflexivity].
Defined.

(** X13: deleting is not repeatable: once the owner has deleted a post,
    the same request sent again is answered 404 "Post not found" and
    changes nothing more. *)
Theorem deletePost_twice (P : Primitives) (s : Store) (req : Request)
    (u : User.t) (i : string) (k : ObjectId) (p : Post.t) :
  resolved req u →
  params_id req = Some i →
  parseObjectId P i = Some k →
  List.find (post_with_id k) (posts s) = Some p →
  Post.user p = User._id u →
  let s1 := db (deletePost P req (World0 s)).2 in
  res (deletePost P req (World0 s)).2
  = Some {| status := 200; json := PMessage "Post removed" |}
  ∧ deletePost P req (World0 s1)
    = (inr tt,
       {| db := s1;
          res := Some {| status := 404; json := PMessage "Post not found" |};
          trace := [] |}).
Proof.
  intros Hu Hi Hk Hp Ho s1. subst s1.
  pose proof (deletePost_owner_run P s req u i k p [] Hu Hi Hk Hp) as H1.
  rewrite bool_decide_eq_true_2 in H1 by done.
  change {| db := s; res := None; trace := [] |} with (World0 s) in H1.
  rewrite !H1. simpl. split; [done |].
  apply (deletePost_missing_run P _ req i k []); [done | done |].
  simpl. apply find_after_remove.
Qed.

Lemma deletePost_twice_witness :
  posts (db (deletePost Demo.prims (Demo.authed Demo.alice (Some "p1") ∅)
               (World0 Demo.store)).2) = []
  ∧ res (deletePost Demo.prims (Demo.authed Demo.alice (Some "p1") ∅)
           (World0 (db (deletePost Demo.prims
                          (Demo.authed Demo.alice (Some "p1") ∅)
                          (World0 Demo.store)).2))).2
    = Some {| status := 404; json := PMessage "Post not found" |}.
Proof.
  split; [reflexivity |].
  destruct (deletePost_twice Demo.prims Demo.store
              (Demo.authed Demo.alice (Some "p1") ∅) Demo.alice "p1" "p1"
              Demo.p1 eq_refl eq_refl eq_refl eq_refl eq_refl) as [_ H].
  by rewrite H.
Defined.

(** ** What is created can be read back *)

(** X14: when createPost answers 201, the answer is the stored post, owned
    by the caller, with the body's content; and if the generated id was
    not in use, a following getPost of that id, by anyone, is answered 200
    with that very post. *)
Theorem createPost_then_getPost (P : Primitives) (env : Env) (s : Store)
    (req req' : Request) (u : User.t) (i : string) :
  resolved req u →
  status <$> res (createPost P env req (World0 s)).2 = Some 201%nat →
  List.find (post_with_id (newId env)) (posts s) = None →
  params_id req' = Some i →
  parseObjectId P i = Some (newId env) →
  let s1 := db (createPost P env req (World0 s)).2 in
  ∃ p : Post.t,
    res (createPost P env req (World0 s)).2
    = Some {| status := 201; json := PPost (plain_post p) |}
    ∧ posts s1 = (posts s ++ [p])%list
    ∧ Post._id p = newId env
    ∧ Post.user p = User._id u
    ∧ body req !! "content" ≫= castString P = Some (Post.content p)
    ∧ res (getPost P req' (World0 s1)).2
      = Some {| status := 200; json := PPost (populated_post s1 p) |}.
Proof.
  intros Hu H201 Hfresh Hi Hk s1. subst s1. revert H201.
  unfold createPost, Post_save, bind.
  rewrite (req_user_id_resolved req u _ Hu). simpl.
  unfold required_string, optional_string.
  destruct (body req !! "content" ≫= castString P) as [c|];
    [destruct (bool_decide (c = "")) |]; try (intros H; discriminate H).
  assert (Hget : ∀ p : Post.t,
            Post._id p = newId env →
            res (getPost P req'
                   (World0 {| users := users s; posts := posts s ++ [p];
                              messages := messages s |})).2
            = Some {| status := 200;
                      json := PPost (populated_post
                                       {| users := users s;
                                          posts := posts s ++ [p];
                                          messages := messages s |} p) |}).
  { intros p Hp. unfold getPost, Post_findById. rewrite Hi. simpl.
    rewrite Hk. js_unfold.
    rewrite (find_snoc_new _ (posts s) p); [done | apply Hfresh |].
    by apply bool_decide_eq_true_2. }
  destruct (body req !! "image") as [[]|]; simpl;
    try (intros H; discriminate H); intros _;
    eexists; (split; [reflexivity |]); (split; [reflexivity |]);
    (split; [reflexivity |]); (split; [reflexivity |]);
    (split; [reflexivity |]); by apply Hget.
Qed.

Lemma createPost_then_getPost_witness :
  ∃ p : Post.t,
    Post.content p = "x"
    ∧ res (getPost Demo.prims (Demo.authed Demo.bob (Some "n1") ∅)
             (World0 (db (createPost Demo.prims Demo.env
                            (Demo.authed Demo.alice None
                               (<["content" := JStr "x"]> ∅))
                            (World0 Demo.store)).2))).2
      = Some {| status := 200;
                json := PPost (populated_post
                                 (db (createPost Demo.prims Demo.env
                                        (Demo.authed Demo.alice None
                                           (<["content" := JStr "x"]> ∅))
                                        (World0 Demo.store)).2) p) |}.
Proof.
  assert (H201 : status
                   <$> res (createPost Demo.prims Demo.env
                              (Demo.authed Demo.alice None
                                 (<["content" := JStr "x"]> ∅))
                              (World0 Demo.store)).2
                 = Some 201%nat) by (vm_compute; reflexivity).
  destruct (createPost_then_getPost Demo.prims Demo.env Demo.store
              (Demo.authed Demo.alice None (<["content" := JStr "x"]> ∅))
              (Demo.authed Demo.bob (Some "n1") ∅) Demo.alice "n1"
              eq_refl H201 eq_refl eq_refl eq_refl)
    as (p & _ & _ & _ & _ & Hc & Hget).
  exists p. split; [| exact Hget].
  vm_compute in Hc. by injection Hc.
Defined.

(** X15: when sendMessage answers 201 for a message addressed to a user,
    that user's next getMessages contains the message, with the caller as
    its sender and the body's content. *)
Theorem sendMessage_then_inbox (P : Primitives) (env : Env) (s : Store)
    (req req' : Request) (u v : User.t) :
  resolved req u →
  status <$> res (sendMessage P env req (World0 s)).2 = Some 201%nat →
  body req !! "recipient" ≫= castObjectId P = Some (User._id v) →
  resolved req' v →
  let s1 := db (sendMessage P env req (World0 s)).2 in
  ∃ (m : Message.t) (ms : list Message.t),
    res (sendMessage P env req (World0 s)).2
    = Some {| status := 201; json := PMsg (plain_message m) |}
    ∧ Message.sender m = User._id u
    ∧ Message.recipient m = User._id v
    ∧ body req !! "content" ≫= castString P = Some (Message.content m)
    ∧ res (getMessages P req' (World0 s1)).2
      = Some {| status := 200; json := PMsgs (inbox_view s1 <$> ms) |}
    ∧ m ∈ ms.
Proof.
  intros Hu H201 Hr Hv s1. subst s1. revert H201.
  unfold sendMessage, Message_save, bind.
  rewrite (req_user_id_resolved req u _ Hu). simpl.
  unfold required_id, required_string. rewrite Hr.
  destruct (body req !! "content" ≫= castString P) as [c|];
    [destruct (bool_decide (c = "")) |]; try (intros H; discriminate H).
  simpl. intros _. eexists. eexists.
  split; [reflexivity |]. split; [reflexivity |]. split; [reflexivity |].
  split; [reflexivity |]. split.
  - unfold getMessages, Message_find_recipient, bind.
    rewrite (req_user_id_resolved req' v _ Hv). reflexivity.
  - rewrite merge_sort_Permutation. simpl.
    rewrite list_elem_of_In, filter_In, <- list_elem_of_In. split.
    + apply elem_of_app. right. apply list_elem_of_here.
    + simpl. by apply bool_decide_eq_true_2.
Qed.

Lemma sendMessage_then_inbox_witness :
  ∃ (m : Message.t) (ms : list Message.t),
    Message.sender m = "u1"
    ∧ res (getMessages Demo.prims (Demo.authed Demo.carol None ∅)
             (World0 (db (sendMessage Demo.prims Demo.env
                            (Demo.authed Demo.alice None
                               (<["recipient" := JStr "u3"]>
                                  (<["content" := JStr "x"]> ∅)))
                            (World0 Demo.store)).2))).2
      = Some {| status := 200;
                json := PMsgs
                          (inbox_view
                             (db (sendMessage Demo.prims Demo.env
                                    (Demo.authed Demo.alice None
                                       (<["recipient" := JStr "u3"]>
                                          (<["content" := JStr "x"]> ∅)))
                                    (World0 Demo.store)).2) <$> ms) |}
    ∧ m ∈ ms.
Proof.
  assert (H201 : status
                   <$> res (sendMessage Demo.prims Demo.env
                              (Demo.authed Demo.alice None
                                 (<["recipient" := JStr "u3"]>
                                    (<["content" := JStr "x"]> ∅)))
                              (World0 Demo.store)).2
                 = Some 201%nat) by (vm_compute; reflexivity).
  assert (Hr : (<["recipient" := JStr "u3"]>
                  (<["content" := JStr "x"]> (∅ : Doc))) !! "recipient"
               ≫= castObjectId Demo.prims = Some (User._id Demo.carol))
    by (vm_compute; reflexivity).
  destruct (sendMessage_then_inbox Demo.prims Demo.env Demo.store
              (Demo.authed Demo.alice None
                 (<["recipient" := JStr "u3"]>
                    (<["content" := JStr "x"]> ∅)))
              (Demo.authed Demo.carol None ∅) Demo.alice Demo.carol
              eq_refl H201 Hr eq_refl)
    as (m & ms & _ & Hs & _ & _ & Hget & Hin).
  exists m, ms. split; [exact Hs |]. split; [exact Hget | exact Hin].
Defined.

(** ** Creation that is refused *)

(** X16: createPost and sendMessage throw, send nothing and store nothing
    when [req.user] is [null], when the body's content is blank and,
    for sendMessage, when the body's recipient is no ObjectId; getMessages
    throws and sends nothing when [req.user] is [null]. *)
Theorem creation_refused_stores_nothing (P : Primitives) (env : Env)
    (s : Store) (req : Request) :
  (user req = None →
   createPost P env req (World0 s) = (inl TypeError, World0 s)
   ∧ sendMessage P env req (World0 s) = (inl TypeError, World0 s)
   ∧ getMessages P req (World0 s) = (inl TypeError, World0 s))
  ∧ (∀ u, resolved req u →
       (blank P (body req !! "content") →
        createPost P env req (World0 s) = (inl ValidationError, World0 s))
       ∧ (blank P (body req !! "content")
          ∨ body req !! "recipient" ≫= castObjectId P = None →
          sendMessage P env req (World0 s)
          = (inl ValidationError, World0 s))).
Proof.
  split.
  - intros Hu. unfold createPost, sendMessage, getMessages, req_user_id, bind.
    by rewrite Hu.
  - intros u Hu. split.
    + intros Hb. unfold createPost, Post_save, bind.
      rewrite (req_user_id_resolved req u _ Hu). simpl.
      unfold required_string. by destruct Hb as [-> | ->].
    + intros Hb. unfold sendMessage, Message_save, bind.
      rewrite (req_user_id_resolved req u _ Hu). simpl.
      unfold required_id, required_string.
      destruct Hb as [[Hb | Hb] | Hb]; rewrite Hb; try done;
        by destruct (body req !! "recipient" ≫= castObjectId P).
Qed.

Lemma creation_refused_stores_nothing_witness :
  createPost Demo.prims Demo.env
    (Demo.authed Demo.alice None (<["content" := JStr ""]> ∅))
    (World0 Demo.store)
  = (inl ValidationError, World0 Demo.store)
  ∧ sendMessage Demo.prims Demo.env
      (Demo.authed Demo.alice None (<["content" := JStr "x"]> ∅))
      (World0 Demo.store)
    = (inl ValidationError, World0 Demo.store).
Proof.
  destruct (creation_refused_stores_nothing Demo.prims Demo.env Demo.store
              (Demo.authed Demo.alice None (<["content" := JStr ""]> ∅)))
    as [_ H1].
  destruct (creation_refused_stores_nothing Demo.prims Demo.env Demo.store
              (Demo.authed Demo.alice None (<["content" := JStr "x"]> ∅)))
    as [_ H2].
  split.
  - apply (H1 Demo.alice eq_refl). right. reflexivity.
  - apply (H2 Demo.alice eq_refl). right. reflexivity.
Defined.

(** ** From registration to the gate *)

Lemma split_on_no_sep (sep : Ascii.ascii) (t : string) :
  sep ∉ String.list_ascii_of_string t → split_on sep t = [t].
Proof.
  induction t as [|c t IH]; simpl; [done |].
  intros Hn. apply not_elem_of_cons in Hn as [Hc Ht].
  destruct (Ascii.eqb_spec c sep) as [-> | _]; [done |].
  by rewrite (IH Ht).
Qed.

Lemma split_on_bearer (t : string) :
  split_on space ("Bearer " +:+ t) = "Bearer" :: split_on space t.
Proof. reflexivity. Qed.

Lemma startsWith_bearer (t : string) :
  startsWith "Bearer" ("Bearer " +:+ t) = true.
Proof. reflexivity. Qed.

(** X17: the token that a successful registration returns opens the gate
    for the new user. Sent as [Bearer <token>] while the token still
    verifies, it makes the gate call [next] with [req.user] set to the
    stored record of the new user without its password hash, provided the
    token is not empty, holds no space, and the new id was not in use. *)
Theorem register_then_gate (P : Primitives) (env env' : Env) (s : Store)
    (req req' : Request) (un em pw : string) :
  body req !! "username" = Some (JStr un) →
  body req !! "email" = Some (JStr em) →
  body req !! "password" = Some (JStr pw) →
  un ≠ "" → em ≠ "" → pw ≠ "" →
  violates_unique un em (users s) = false →
  List.find (by_id (newId env)) (users s) = None →
  generateToken P env (newId env) ≠ "" →
  space ∉ String.list_ascii_of_string (generateToken P env (newId env)) →
  jwt_check P (generateToken P env (newId env)) (now env')
  = Some (newId env) →
  authorization req'
  = Some ("Bearer " +:+ generateToken P env (newId env)) →
  let w := (registerUser P env req (World0 s)).2 in
  res w = Some {| status := 201;
                  json := PAuth (newId env) un em
                                (generateToken P env (newId env)) |}
  ∧ ∃ d : Doc,
      authMiddleware P env' req' probe (World0 (db w))
      = (inr tt,
         {| db := db w; res := None;
            trace := [EvNext (set_user (Some d) req')] |})
      ∧ d !! "_id" = Some (JId (newId env))
      ∧ d !! "username" = Some (JStr un)
      ∧ d !! "email" = Some (JStr em)
      ∧ d !! "password" = None.
Proof.
  intros Hun Hem Hpw Nun Nem Npw Hfresh Hid Ntok Hsp Hjwt Hauth w. subst w.
  rewrite (registerUser_fresh_run P env s req un em pw) by done. simpl.
  split; [done |].
  exists (select_exclude "password" (user_doc (registered P env un em pw))).
  split.
  - rewrite (authMiddleware_passes P env' req' probe _ (newId env));
      [| | apply probe_returns].
    + unfold attached. simpl.
      rewrite (find_snoc_new _ (users s) (registered P env un em pw));
        [done | apply Hid |].
      unfold by_id. by apply bool_decide_eq_true_2.
    + unfold verified_subject, bearer_token.
      rewrite Hauth, startsWith_bearer, split_on_bearer.
      rewrite (split_on_no_sep space _ Hsp). simpl.
      by rewrite (bool_decide_eq_false_2 _ Ntok).
  - unfold select_exclude, user_doc, opt_field. simpl.
    repeat split; by simplify_map_eq.
Qed.

Lemma register_then_gate_witness :
  ∃ d : Doc,
    authMiddleware Demo.prims Demo.env
      (Demo.request GET [] (Some "Bearer jwt.n1") ∅) probe
      (World0 (db (registerUser Demo.prims Demo.env
                     (Demo.request POST ["register"] None
                        (register_body "zed" "zed@example.org" "pw"))
                     (World0 Demo.store)).2))
    = (inr tt,
       {| db := db (registerUser Demo.prims Demo.env
                      (Demo.request POST ["register"] None
                         (register_body "zed" "zed@example.org" "pw"))
                      (World0 Demo.store)).2;
          res := None;
          trace := [EvNext (set_user (Some d)
                              (Demo.request GET []
                                 (Some "Bearer jwt.n1") ∅))] |})
    ∧ d !! "username" = Some (JStr "zed").
Proof.
  destruct (register_then_gate Demo.prims Demo.env Demo.env Demo.store
              (Demo.request POST ["register"] None
                 (register_body "zed" "zed@example.org" "pw"))
              (Demo.request GET [] (Some "Bearer jwt.n1") ∅)
              "zed" "zed@example.org" "pw")
    as (_ & d & Hgate & _ & Hname & _);
    try reflexivity; try discriminate.
  - apply (bool_decide_unpack _). vm_compute. exact I.
  - exists d. split; [exact Hgate | exact Hname].
Defined.

(** ** Stored users and messages are never rewritten *)

Lemma extends_refl (s : Store) : extends s s.
Proof. by split. Qed.

Lemma extends_trans (s1 s2 s3 : Store) :
  extends s1 s2 → extends s2 s3 → extends s1 s3.
Proof. intros [? ?] [? ?]. split; by etrans. Qed.

Lemma keeps_ret {A} (a : A) : keeps (ret a).
Proof. intros w. apply extends_refl. Qed.

Lemma keeps_throw {A} (e : Error) : keeps (@throw A e).
Proof. intros w. apply extends_refl. Qed.

Lemma keeps_get_db : keeps get_db.
Proof. intros w. apply extends_refl. Qed.

Lemma keeps_emit (e : Event) : keeps (emit e).
Proof. intros w. apply extends_refl. Qed.

Lemma keeps_send (code : nat) (p : Payload) : keeps (send code p).
Proof. intros w. unfold send. destruct (res w); apply extends_refl. Qed.

Lemma keeps_finalhandler : keeps finalhandler.
Proof.
  intros w. unfold finalhandler, send. destruct (res w); apply extends_refl.
Qed.

Lemma keeps_bind {A B} (c : Js A) (k : A → Js B) :
  keeps c → (∀ a, keeps (k a)) → keeps (bind c k).
Proof.
  intros Hc Hk w. unfold bind. specialize (Hc w).
  destruct (c w) as [[e|a] w1]; simpl in *; [done |].
  eapply extends_trans; [exact Hc | apply Hk].
Qed.

Lemma keeps_try_catch {A} (c : Js A) (h : Error → Js A) :
  keeps c → (∀ e, keeps (h e)) → keeps (try_catch c h).
Proof.
  intros Hc Hh w. unfold try_catch. specialize (Hc w).
  destruct (c w) as [[e|a] w1]; simpl in *; [| done].
  eapply extends_trans; [exact Hc | apply Hh].
Qed.

Lemma keeps_detached (c : Js unit) : keeps c → keeps (detached c).
Proof.
  intros Hc. apply keeps_try_catch; [done |]. intros e. apply keeps_emit.
Qed.

(** The steps that are built from the ones above. *)
Ltac keeps_step :=
  first
    [ apply keeps_ret | apply keeps_throw | apply keeps_get_db
    | apply keeps_emit | apply keeps_send | apply keeps_finalhandler
    | apply keeps_detached
    | apply keeps_bind; [| intros ?]
    | apply keeps_try_catch; [| intros ?]
    | assumption
    | case_match ].

Section Keeps.
Context (P : Primitives) (env : Env).

Lemma keeps_User_create (a b c : option JValue) :
  keeps (User_create P env a b c).
Proof.
  unfold User_create, required_string.
  do 4 (apply keeps_bind; [repeat keeps_step | intros ?]).
  intros w. unfold bind, get_db, put_db, ret, throw. simpl.
  destruct (violates_unique _ _ (users (db w))); simpl;
    [apply extends_refl |].
  split; simpl; [by apply prefix_app_r | done].
Qed.

Lemma keeps_Post_save (a b c : option JValue) :
  keeps (Post_save P env a b c).
Proof.
  unfold Post_save, required_id, required_string, optional_string.
  do 3 (apply keeps_bind; [repeat keeps_step | intros ?]).
  intros w. by split.
Qed.

Lemma keeps_Post_remove (p : Post.t) : keeps (Post_remove p).
Proof. intros w. by split. Qed.

Lemma keeps_Message_save (a b c : option JValue) :
  keeps (Message_save P env a b c).
Proof.
  unfold Message_save, required_id, required_string.
  do 3 (apply keeps_bind; [repeat keeps_step | intros ?]).
  intros w. split; simpl; [done | by apply prefix_app_r].
Qed.

Lemma keeps_registerUser (req : Request) : keeps (registerUser P env req).
Proof.
  unfold registerUser, User_findOne_email.
  repeat first [apply keeps_User_create | keeps_step].
Qed.

Lemma keeps_loginUser (req : Request) : keeps (loginUser P env req).
Proof.
  unfold loginUser, User_findOne_email, matchPassword. repeat keeps_step.
Qed.

Lemma keeps_createPost (req : Request) : keeps (createPost P env req).
Proof.
  unfold createPost, req_user_id.
  repeat first [apply keeps_Post_save | keeps_step].
Qed.

Lemma keeps_getPosts (req : Request) : keeps (getPosts req).
Proof. unfold getPosts. repeat keeps_step. Qed.

Lemma keeps_getPost (req : Request) : keeps (getPost P req).
Proof. unfold getPost, Post_findById. repeat keeps_step. Qed.

Lemma keeps_deletePost (req : Request) : keeps (deletePost P req).
Proof.
  unfold deletePost, Post_findById, req_user_id.
  repeat first [apply keeps_Post_remove | keeps_step].
Qed.

Lemma keeps_sendMessage (req : Request) : keeps (sendMessage P env req).
Proof.
  unfold sendMessage, req_user_id.
  repeat first [apply keeps_Message_save | keeps_step].
Qed.

Lemma keeps_getMessages (req : Request) : keeps (getMessages P req).
Proof.
  unfold getMessages, Message_find_recipient, req_user_id.
  repeat keeps_step.
Qed.

Lemma keeps_getMessage (req : Request) : keeps (getMessage P req).
Proof. unfold getMessage, Message_findById. repeat keeps_step. Qed.

Lemma keeps_authMiddleware (req : Request) (next : Request → Js unit) :
  (∀ r, keeps (next r)) → keeps (authMiddleware P env req next).
Proof.
  intros Hnext. unfold authMiddleware, jwt_verify, User_findById.
  repeat first [apply Hnext | keeps_step].
Qed.
End Keeps.

Lemma keeps_run_layers (ls : list Layer) (exit : Request → Js unit) :
  Forall layer_keeps ls →
  (∀ r, keeps (exit r)) →
  ∀ req, keeps (run_layers ls exit req).
Proof.
  intros Hls Hexit. induction Hls as [|[mw | m pat name h] ls Hl Hls IH];
    intros req; simpl.
  - apply Hexit.
  - apply keeps_detached. apply Hl. exact IH.
  - destruct (match_route m pat req) as [req'|]; [| apply IH].
    apply keeps_bind; [apply keeps_emit | intros _].
    apply keeps_detached. apply Hl.
Qed.

Lemma keeps_mounted (pre : list string) (router : list Layer)
    (exit : Request → Js unit) :
  Forall layer_keeps router →
  (∀ r, keeps (exit r)) →
  ∀ req, keeps (mounted pre router exit req).
Proof.
  intros Hr Hexit req. unfold mounted.
  destruct (strip_prefix pre (path req)); [| apply Hexit].
  apply keeps_run_layers; [done |]. intros r. apply Hexit.
Qed.

(** X18: no request to the application alters or removes a stored user
    or a stored message: after any request, the users and the messages
    that were stored are still there, unchanged and in place, possibly
    followed by new ones. *)
Theorem app_only_appends_users_and_messages (P : Primitives) (env : Env)
    (s : Store) (req : Request) :
  extends s (db (app P env req (World0 s)).2).
Proof.
  assert (Hauth : Forall layer_keeps (authRoutes P env)).
  { apply List.Forall_cons; [intros r; apply keeps_registerUser |].
    apply List.Forall_cons; [intros r; apply keeps_loginUser |].
    apply List.Forall_nil. }
  assert (Hgate : layer_keeps (Use (authMiddleware P env))).
  { intros r next Hn. by apply keeps_authMiddleware. }
  assert (Hposts : Forall layer_keeps (postRoutes P env)).
  { apply List.Forall_cons; [exact Hgate |].
    apply List.Forall_cons; [intros r; apply keeps_createPost |].
    apply List.Forall_cons; [intros r; apply keeps_getPosts |].
    apply List.Forall_cons; [intros r; apply keeps_getPost |].
    apply List.Forall_cons; [intros r; apply keeps_deletePost |].
    apply List.Forall_nil. }
  assert (Hmsgs : Forall layer_keeps (messageRoutes P env)).
  { apply List.Forall_cons; [exact Hgate |].
    apply List.Forall_cons; [intros r; apply keeps_sendMessage |].
    apply List.Forall_cons; [intros r; apply keeps_getMessages |].
    apply List.Forall_cons; [intros r; apply keeps_getMessage |].
    apply List.Forall_nil. }
  unfold app.
  apply (keeps_mounted _ _ _ Hauth
           (keeps_mounted _ _ _ Hposts
              (keeps_mounted _ _ _ Hmsgs (λ _, keeps_finalhandler)))
           req (World0 s)).
Qed.

(** ** Through the application, end to end *)

Section EndToEnd.
Context (P : Primitives) (env : Env).

Lemma gate_then_layers (rest : list Layer) (exit : Request → Js unit)
    (req : Request) (w : World) (i : ObjectId) :
  verified_subject P env req = Some i →
  (∀ r w', (exit r w').1 = inr tt) →
  run_layers (Use (authMiddleware P env) :: rest) exit req w
  = run_layers rest exit (attached (db w) i req) w.
Proof.
  intros Hv Hexit. simpl.
  pose proof (run_layers_returns rest exit Hexit) as Hret.
  rewrite detached_of_returning;
    rewrite (authMiddleware_passes P env req _ w i Hv Hret);
    [done | apply Hret].
Qed.

(** Where a request for one post, by id, ends up once its token has
    verified. *)
Lemma app_post_by_id (req : Request) (s : Store) (i : string)
    (j : ObjectId) (name : HandlerName) (h : Request → Js unit) :
  path req = ["api"; "posts"; i] →
  i ≠ "" →
  verified_subject P env req = Some j →
  (method req = GET ∧ name = h_getPost ∧ h = getPost P)
  ∨ (method req = DELETE ∧ name = h_deletePost ∧ h = deletePost P) →
  let req' := set_params_id (Some i) (attached s j (set_path [i] req)) in
  app P env req (World0 s)
  = detached (h req')
      {| db := s; res := None; trace := [EvHandler name req'] |}.
Proof.
  intros Hp Hi Hv Hm req'. subst req'. unfold app, mounted. rewrite Hp.
  change (strip_prefix ["api"; "auth"] ["api"; "posts"; i])
    with (@None (list string)).
  change (strip_prefix ["api"; "posts"] ["api"; "posts"; i])
    with (Some [i]).
  cbv beta iota. unfold postRoutes.
  rewrite (gate_then_layers _ _ _ (World0 s) j);
    [| exact Hv | intros r w'; apply finalhandler_returns].
  destruct Hm as [(Hm & -> & ->) | (Hm & -> & ->)];
    simpl; unfold match_route; simpl; rewrite Hm; simpl;
    by rewrite (bool_decide_eq_false_2 _ Hi).
Qed.

Lemma getPost_found_run (s : Store) (req : Request) (i : string)
    (k : ObjectId) (p : Post.t) (t : list Event) :
  params_id req = Some i →
  parseObjectId P i = Some k →
  List.find (post_with_id k) (posts s) = Some p →
  getPost P req {| db := s; res := None; trace := t |}
  = (inr tt,
     {| db := s;
        res := Some {| status := 200; json := PPost (populated_post s p) |};
        trace := t |}).
Proof.
  intros Hi Hk Hp. unfold getPost, Post_findById. rewrite Hi. simpl.
  rewrite Hk. unfold post_with_id in *. js_unfold. by rewrite Hp.
Qed.
End EndToEnd.

(** X19: through the application, with tokens that verify for stored
    users: DELETE /api/posts/:id by someone who does not own the post is
    answered 404 "Post not found" and leaves the store as it was, so that
    a following GET /api/posts/:id, under any token that verifies, is
    answered 200 with the post; the same DELETE by the owner is answered
    200 "Post removed" and the post is gone from the store. *)
Theorem app_delete_post_scenario (P : Primitives) (env : Env) (s : Store)
    (del get : Request) (i : string) (k : ObjectId) (p : Post.t)
    (u : User.t) (j : ObjectId) :
  path del = ["api"; "posts"; i] →
  method del = DELETE →
  path get = ["api"; "posts"; i] →
  method get = GET →
  i ≠ "" →
  parseObjectId P i = Some k →
  List.find (post_with_id k) (posts s) = Some p →
  verified_subject P env del = Some (User._id u) →
  List.find (by_id (User._id u)) (users s) = Some u →
  verified_subject P env get = Some j →
  let w1 := (app P env del (World0 s)).2 in
  (Post.user p ≠ User._id u →
   res w1 = Some {| status := 404; json := PMessage "Post not found" |}
   ∧ db w1 = s
   ∧ res (app P env get (World0 (db w1))).2
     = Some {| status := 200; json := PPost (populated_post s p) |})
  ∧ (Post.user p = User._id u →
     res w1 = Some {| status := 200; json := PMessage "Post removed" |}
     ∧ List.find (post_with_id k) (posts (db w1)) = None).
Proof.
  intros Hpd Hmd Hpg Hmg Hi Hk Hp Hvd Hu Hvg w1. subst w1.
  rewrite (app_post_by_id P env del s i (User._id u) h_deletePost
             (deletePost P)) by (done || (right; done)).
  assert (Hres : resolved
                   (set_params_id (Some i)
                      (attached s (User._id u) (set_path [i] del))) u).
  { unfold resolved, attached. simpl. by rewrite Hu. }
  rewrite detached_of_returning;
    rewrite (deletePost_owner_run P s _ u i k p _ Hres eq_refl Hk Hp);
    [| by destruct (bool_decide (Post.user p = User._id u))].
  split; intros Ho.
  - rewrite bool_decide_eq_false_2 by done. simpl.
    split; [done |]. split; [done |].
    rewrite (app_post_by_id P env get s i j h_getPost (getPost P))
      by (done || (left; done)).
    rewrite detached_of_returning;
      by rewrite (getPost_found_run P s
                    (set_params_id (Some i)
                       (attached s j (set_path [i] get)))
                    i k p _ eq_refl Hk Hp).
  - rewrite bool_decide_eq_true_2 by done. simpl.
    split; [done |]. apply find_after_remove.
Qed.

Lemma app_delete_post_scenario_witness :
  res (app Demo.prims Demo.env
         (Demo.request DELETE ["api"; "posts"; "p1"]
            (Some "Bearer jwt.u2") ∅)
         (World0 Demo.store)).2
  = Some {| status := 404; json := PMessage "Post not found" |}
  ∧ res (app Demo.prims Demo.env
           (Demo.request DELETE ["api"; "posts"; "p1"]
              (Some "Bearer jwt.u1") ∅)
           (World0 Demo.store)).2
    = Some {| status := 200; json := PMessage "Post removed" |}.
Proof.
  assert (Hb : verified_subject Demo.prims Demo.env
                 (Demo.request DELETE ["api"; "posts"; "p1"]
                    (Some "Bearer jwt.u2") ∅)
               = Some (User._id Demo.bob)) by (vm_compute; reflexivity).
  assert (Ha : verified_subject Demo.prims Demo.env
                 (Demo.request DELETE ["api"; "posts"; "p1"]
                    (Some "Bearer jwt.u1") ∅)
               = Some (User._id Demo.alice)) by (vm_compute; reflexivity).
  assert (Hg : verified_subject Demo.prims Demo.env
                 (Demo.request GET ["api"; "posts"; "p1"]
                    (Some "Bearer jwt.u1") ∅)
               = Some "u1") by (vm_compute; reflexivity).
  assert (Hne : "p1" ≠ "") by discriminate.
  assert (Hfb : List.find (by_id (User._id Demo.bob)) (users Demo.store)
                = Some Demo.bob) by (vm_compute; reflexivity).
  assert (Hfa : List.find (by_id (User._id Demo.alice)) (users Demo.store)
                = Some Demo.alice) by (vm_compute; reflexivity).
  assert (Hfp : List.find (post_with_id "p1") (posts Demo.store)
                = Some Demo.p1) by (vm_compute; reflexivity).
  destruct (app_delete_post_scenario Demo.prims Demo.env Demo.store
              (Demo.request DELETE ["api"; "posts"; "p1"]
                 (Some "Bearer jwt.u2") ∅)
              (Demo.request GET ["api"; "posts"; "p1"]
                 (Some "Bearer jwt.u1") ∅)
              "p1" "p1" Demo.p1 Demo.bob "u1"
              eq_refl eq_refl eq_refl eq_refl Hne eq_refl Hfp Hb Hfb Hg)
    as [Hother _].
  destruct (app_delete_post_scenario Demo.prims Demo.env Demo.store
              (Demo.request DELETE ["api"; "posts"; "p1"]
                 (Some "Bearer jwt.u1") ∅)
              (Demo.request GET ["api"; "posts"; "p1"]
                 (Some "Bearer jwt.u1") ∅)
              "p1" "p1" Demo.p1 Demo.alice "u1"
              eq_refl eq_refl eq_refl eq_refl Hne eq_refl Hfp Ha Hfa Hg)
    as [_ Howner].
  split.
  - apply Hother. vm_compute. discriminate.
  - apply Howner. reflexivity.
Defined.

(** ** Routes that need no token *)

(** X20: the routes under /api/auth are not behind the gate: a POST to
    /api/auth/register or /api/auth/login runs registerUser, respectively
    loginUser, whatever Authorization header the request has or lacks,
    and the handler sees no [req.user] that the request did not bring. *)
Theorem auth_routes_are_open (P : Primitives) (env : Env) (s : Store)
    (req : Request) :
  method req = POST →
  (path req = ["api"; "auth"; "register"] →
   app P env req (World0 s)
   = detached (registerUser P env (set_path ["register"] req))
       {| db := s; res := None;
          trace := [EvHandler h_registerUser (set_path ["register"] req)]
       |})
  ∧ (path req = ["api"; "auth"; "login"] →
     app P env req (World0 s)
     = detached (loginUser P env (set_path ["login"] req))
         {| db := s; res := None;
            trace := [EvHandler h_loginUser (set_path ["login"] req)] |}).
Proof.
  intros Hm. split; intros Hp; unfold app, mounted; rewrite Hp.
  - change (strip_prefix ["api"; "auth"] ["api"; "auth"; "register"])
      with (Some ["register"]).
    cbv beta iota. unfold authRoutes. simpl. unfold match_route. simpl.
    by rewrite Hm.
  - change (strip_prefix ["api"; "auth"] ["api"; "auth"; "login"])
      with (Some ["login"]).
    cbv beta iota. unfold authRoutes. simpl. unfold match_route. simpl.
    by rewrite Hm.
Qed.

Lemma auth_routes_are_open_witness :
  status
    <$> res (app Demo.prims Demo.env
               (Demo.request POST ["api"; "auth"; "login"]
                  (Some "Bearer forged")
                  (login_body "alice@example.org" "alice"))
               (World0 Demo.store)).2
  = Some 200%nat.
Proof.
  destruct (auth_routes_are_open Demo.prims Demo.env Demo.store
              (Demo.request POST ["api"; "auth"; "login"]
                 (Some "Bearer forged")
                 (login_body "alice@example.org" "alice")) eq_refl)
    as [_ H].
  rewrite (H eq_refl). vm_compute. reflexivity.
Defined.

(** ** What populate lets out *)

Lemma select_fields_lookup (ks : list string) (d : Doc) (k : string) :
  select_fields ks d !! k = if bool_decide (k ∈ ks) then d !! k else None.
Proof.
  unfold select_fields. case_bool_decide as Hk.
  - destruct (d !! k) as [v|] eqn:Hd.
    + by apply map_lookup_filter_Some.
    + apply map_lookup_filter_None. left. done.
  - apply map_lookup_filter_None. right. intros v _. done.
Qed.

Lemma public_fields_all : public_fields ⊆ public_fields.
Proof. done. Qed.

Lemma public_fields_two : ["_id"; "username"] ⊆ public_fields.
Proof.
  intros k Hk. unfold public_fields.
  apply elem_of_cons in Hk as [-> | Hk]; [by left |].
  apply list_elem_of_singleton in Hk as ->. right. by left.
Qed.

Lemma select_fields_public (ks : list string) (d : Doc) :
  ks ⊆ public_fields → public_doc (select_fields ks d).
Proof.
  intros Hks k. rewrite select_fields_lookup. case_bool_decide as Hk.
  - intros _. by apply Hks.
  - by intros [? ?].
Qed.

Lemma populate_public (ks : list string) (s : Store) (i : ObjectId)
    (d : Doc) :
  ks ⊆ public_fields → ref_doc (populate ks s i) = Some d → public_doc d.
Proof.
  intros Hks. unfold populate, ref_doc.
  destruct (List.find _ (users s)) as [u|]; simpl; [| done].
  intros [= <-]. by apply select_fields_public.
Qed.

Lemma populated_post_public (s : Store) (p : Post.t) (d : Doc) :
  d ∈ post_view_docs (populated_post s p) → public_doc d.
Proof.
  unfold post_view_docs, populated_post. cbn [pv_user pv_comment_users].
  intros (r & Hr & Hd)%list_elem_of_omap.
  apply elem_of_cons in Hr as [-> | Hr].
  - eapply populate_public; [apply public_fields_all | exact Hd].
  - apply list_elem_of_omap in Hr as (o & Ho & Hor).
    apply list_elem_of_fmap in Ho as (c & -> & _).
    destruct (Comment.user c) as [i|]; simpl in Hor; [| done].
    injection Hor as <-.
    eapply populate_public; [apply public_fields_two | exact Hd].
Qed.

Lemma plain_post_no_docs (p : Post.t) : post_view_docs (plain_post p) = [].
Proof.
  unfold post_view_docs, plain_post. cbn [pv_user pv_comment_users].
  assert (H : ∀ cs : list Comment.t,
            omap ref_doc
              (omap id ((λ c, Unpopulated <$> Comment.user c) <$> cs))
            = []).
  { induction cs as [|c cs IH]; [done |]. simpl.
    destruct (Comment.user c); simpl; exact IH. }
  simpl. apply H.
Qed.

Lemma inbox_view_public (s : Store) (m : Message.t) (d : Doc) :
  d ∈ message_view_docs (inbox_view s m) → public_doc d.
Proof.
  unfold message_view_docs, inbox_view. cbn [mv_sender mv_recipient].
  intros (r & Hr & Hd)%list_elem_of_omap.
  apply elem_of_cons in Hr as [-> | Hr].
  - eapply populate_public; [apply public_fields_all | exact Hd].
  - apply list_elem_of_singleton in Hr as ->. done.
Qed.

Lemma full_view_public (s : Store) (m : Message.t) (d : Doc) :
  d ∈ message_view_docs (full_view s m) → public_doc d.
Proof.
  unfold message_view_docs, full_view. cbn [mv_sender mv_recipient].
  intros (r & Hr & Hd)%list_elem_of_omap.
  apply elem_of_cons in Hr as [-> | Hr].
  - eapply populate_public; [apply public_fields_all | exact Hd].
  - apply list_elem_of_singleton in Hr as ->.
    eapply populate_public; [apply public_fields_all | exact Hd].
Qed.

Lemma public_ret {A} (a : A) : sends_public (ret a).
Proof. by intros w. Qed.

Lemma public_throw {A} (e : Error) : sends_public (@throw A e).
Proof. by intros w. Qed.

Lemma public_get_db : sends_public get_db.
Proof. by intros w. Qed.

Lemma public_put_db (s : Store) : sends_public (put_db s).
Proof. by intros w. Qed.

Lemma public_emit (e : Event) : sends_public (emit e).
Proof. by intros w. Qed.

Lemma public_send (code : nat) (p : Payload) :
  (∀ d, d ∈ payload_docs p → public_doc d) → sends_public (send code p).
Proof.
  intros Hp w Hw. unfold send. destruct (res w) eqn:Hr; [done |].
  intros r d [= <-] Hd. by apply Hp.
Qed.

Lemma public_send_plain (code : nat) (p : Payload) :
  payload_docs p = [] → sends_public (send code p).
Proof.
  intros Hp. apply public_send. rewrite Hp. intros d Hd.
  by apply elem_of_nil in Hd.
Qed.

Lemma public_finalhandler : sends_public finalhandler.
Proof.
  intros w Hw. unfold finalhandler. destruct (res w) eqn:Hr; [done |].
  by apply (public_send_plain 404 PCannotRoute).
Qed.

Lemma public_bind {A B} (c : Js A) (k : A → Js B) :
  sends_public c → (∀ a, sends_public (k a)) → sends_public (bind c k).
Proof.
  intros Hc Hk w Hw. unfold bind. specialize (Hc w Hw).
  destruct (c w) as [[e|a] w1]; simpl in *; [done |]. by apply Hk.
Qed.

Lemma public_try_catch {A} (c : Js A) (h : Error → Js A) :
  sends_public c → (∀ e, sends_public (h e)) →
  sends_public (try_catch c h).
Proof.
  intros Hc Hh w Hw. unfold try_catch. specialize (Hc w Hw).
  destruct (c w) as [[e|a] w1]; simpl in *; [| done]. by apply Hh.
Qed.

Lemma public_detached (c : Js unit) :
  sends_public c → sends_public (detached c).
Proof.
  intros Hc. apply public_try_catch; [done |]. intros e. apply public_emit.
Qed.

Ltac public_step :=
  first
    [ apply public_ret | apply public_throw | apply public_get_db
    | apply public_put_db | apply public_emit | apply public_finalhandler
    | apply public_detached
    | apply public_send_plain; reflexivity
    | apply public_bind; [| intros ?]
    | apply public_try_catch; [| intros ?]
    | assumption
    | case_match ].

Section Public.
Context (P : Primitives) (env : Env).

Lemma public_registerUser (req : Request) :
  sends_public (registerUser P env req).
Proof.
  unfold registerUser, User_findOne_email, User_create, required_string.
  repeat public_step.
Qed.

Lemma public_loginUser (req : Request) : sends_public (loginUser P env req).
Proof.
  unfold loginUser, User_findOne_email, matchPassword. repeat public_step.
Qed.

Lemma public_createPost (req : Request) :
  sends_public (createPost P env req).
Proof.
  unfold createPost, req_user_id, Post_save, required_id, required_string,
    optional_string.
  repeat first
    [ apply public_send_plain; apply plain_post_no_docs | public_step ].
Qed.

Lemma public_getPosts (req : Request) : sends_public (getPosts req).
Proof.
  unfold getPosts. apply public_bind; [apply public_get_db | intros s].
  apply public_send. simpl. intros d (v & Hd & Hv)%list_elem_of_bind.
  apply list_elem_of_fmap in Hv as (p & -> & _).
  by apply (populated_post_public s p).
Qed.

Lemma public_getPost (req : Request) : sends_public (getPost P req).
Proof.
  unfold getPost, Post_findById.
  repeat first
    [ apply public_send; apply populated_post_public | public_step ].
Qed.

Lemma public_deletePost (req : Request) : sends_public (deletePost P req).
Proof.
  unfold deletePost, Post_findById, req_user_id, Post_remove.
  repeat public_step.
Qed.

Lemma public_sendMessage (req : Request) :
  sends_public (sendMessage P env req).
Proof.
  unfold sendMessage, req_user_id, Message_save, required_id,
    required_string.
  repeat public_step.
Qed.

Lemma public_getMessages (req : Request) :
  sends_public (getMessages P req).
Proof.
  unfold getMessages, req_user_id, Message_find_recipient.
  assert (Hsend : ∀ s ms,
            sends_public
              (send 200 (PMsgs (inbox_view s
                                  <$> merge_sort newer_first_msg ms)))).
  { intros s ms. apply public_send. simpl.
    intros d (v & Hd & Hv)%list_elem_of_bind.
    apply list_elem_of_fmap in Hv as (m & -> & _).
    by apply (inbox_view_public s m). }
  repeat first [ apply Hsend | public_step ].
Qed.

Lemma public_getMessage (req : Request) : sends_public (getMessage P req).
Proof.
  unfold getMessage, Message_findById.
  repeat first [ apply public_send; apply full_view_public | public_step ].
Qed.

Lemma public_authMiddleware (req : Request) (next : Request → Js unit) :
  (∀ r, sends_public (next r)) →
  sends_public (authMiddleware P env req next).
Proof.
  intros Hnext. unfold authMiddleware, jwt_verify, User_findById.
  repeat first [apply Hnext | public_step].
Qed.
End Public.

Lemma public_run_layers (ls : list Layer) (exit : Request → Js unit) :
  Forall layer_public ls →
  (∀ r, sends_public (exit r)) →
  ∀ req, sends_public (run_layers ls exit req).
Proof.
  intros Hls Hexit. induction Hls as [|[mw | m pat name h] ls Hl Hls IH];
    intros req; simpl.
  - apply Hexit.
  - apply public_detached. apply Hl. exact IH.
  - destruct (match_route m pat req) as [req'|]; [| apply IH].
    apply public_bind; [apply public_emit | intros _].
    apply public_detached. apply Hl.
Qed.

Lemma public_mounted (pre : list string) (router : list Layer)
    (exit : Request → Js unit) :
  Forall layer_public router →
  (∀ r, sends_public (exit r)) →
  ∀ req, sends_public (mounted pre router exit req).
Proof.
  intros Hr Hexit req. unfold mounted.
  destruct (strip_prefix pre (path req)); [| apply Hexit].
  apply public_run_layers; [done |]. intros r. apply Hexit.
Qed.

(** X21: whatever the application answers, the users that the answer
    shows in place of references (the author of a post, the authors of
    its comments, the sender and the recipient of a message) are shown
    by their [_id], [username] and [profilePicture] only: no response
    carries, in a populated reference, a password hash or an email. *)
Theorem app_responses_show_public_fields_only (P : Primitives) (env : Env)
    (s : Store) (req : Request) (r : Response) (d : Doc) :
  res (app P env req (World0 s)).2 = Some r →
  d ∈ payload_docs (json r) →
  (∀ k, is_Some (d !! k) → k ∈ ["_id"; "username"; "profilePicture"])
  ∧ d !! "password" = None
  ∧ d !! "email" = None.
Proof.
  intros Hres Hd.
  assert (Hpub : public_doc d).
  { assert (Hauth : Forall layer_public (authRoutes P env)).
    { apply List.Forall_cons; [intros q; apply public_registerUser |].
      apply List.Forall_cons; [intros q; apply public_loginUser |].
      apply List.Forall_nil. }
    assert (Hgate : layer_public (Use (authMiddleware P env))).
    { intros q next Hn. by apply public_authMiddleware. }
    assert (Hposts : Forall layer_public (postRoutes P env)).
    { apply List.Forall_cons; [exact Hgate |].
      apply List.Forall_cons; [intros q; apply public_createPost |].
      apply List.Forall_cons; [intros q; apply public_getPosts |].
      apply List.Forall_cons; [intros q; apply public_getPost |].
      apply List.Forall_cons; [intros q; apply public_deletePost |].
      apply List.Forall_nil. }
    assert (Hmsgs : Forall layer_public (messageRoutes P env)).
    { apply List.Forall_cons; [exact Hgate |].
      apply List.Forall_cons; [intros q; apply public_sendMessage |].
      apply List.Forall_cons; [intros q; apply public_getMessages |].
      apply List.Forall_cons; [intros q; apply public_getMessage |].
      apply List.Forall_nil. }
    refine (public_mounted _ _ _ Hauth
              (public_mounted _ _ _ Hposts
                 (public_mounted _ _ _ Hmsgs (λ _, public_finalhandler)))
              req (World0 s) _ r d Hres Hd).
    intros r' d' Hr'. discriminate Hr'. }
  split; [exact Hpub |].
  split.
  - destruct (d !! "password") eqn:Hk; [| done].
    assert (Hin : "password" ∈ public_fields) by (apply Hpub; by eexists).
    assert (Hn : "password" ∉ public_fields)
      by (apply (bool_decide_unpack _); vm_compute; exact I).
    by destruct (Hn Hin).
  - destruct (d !! "email") eqn:Hk; [| done].
    assert (Hin : "email" ∈ public_fields) by (apply Hpub; by eexists).
    assert (Hn : "email" ∉ public_fields)
      by (apply (bool_decide_unpack _); vm_compute; exact I).
    by destruct (Hn Hin).
Qed.

Lemma app_responses_show_public_fields_only_witness :
  ∃ d : Doc,
    d ∈ payload_docs
          (PMsg (full_view Demo.store Demo.m1))
    ∧ d !! "username" = Some (JStr "alice")
    ∧ d !! "password" = None
    ∧ d !! "email" = None.
Proof.
  exists (select_fields public_fields (user_doc Demo.alice)).
  assert (Hin : select_fields public_fields (user_doc Demo.alice)
                ∈ payload_docs (PMsg (full_view Demo.store Demo.m1)))
    by (vm_compute; apply list_elem_of_here).
  assert (Hres : res (app Demo.prims Demo.env
                        (Demo.request GET ["api"; "messages"; "m1"]
                           (Some "Bearer jwt.u3") ∅)
                        (World0 Demo.store)).2
                 = Some {| status := 200;
                           json := PMsg (full_view Demo.store Demo.m1) |})
    by (vm_compute; reflexivity).
  destruct (app_responses_show_public_fields_only Demo.prims Demo.env
              Demo.store
              (Demo.request GET ["api"; "messages"; "m1"]
                 (Some "Bearer jwt.u3") ∅)
              _ _ Hres Hin) as (_ & Hp & He).
  split; [exact Hin |]. split; [reflexivity |]. by split.
Defined.
